(** * MFSU plugin of umi: a shallow embedding and its verified properties

    The development follows the plugin source
    [src/packages/umi/src/ServiceWithBuiltIn.ts] (the mfsu feature entry):

    - [checkConfig], [getMfsuPath], [normalizeReqPath]: the pure helpers;
    - [onStart]: the start-up hook that selects the mode;
    - [buildDeps] and its completion callback: the reconcile step;
    - [mfsuCommand]: the [umi mfsu] command;
    - [mfsuMiddleware]: the request middleware serving pre-built assets.

    JavaScript strings are Rocq strings (one [ascii] stands for one code
    unit), JavaScript objects used as dictionaries are [gmap]s, thrown
    exceptions are the [Throws] case of [Outcome], and side effects are
    recorded as a list of [Event]s next to the explicit state of the
    plugin closure.  Calls of the diagnostic logger [debug] take no part in
    any behaviour and are left out.

    The classes [DepInfo] and [DepBuilder] and the helper [copy] are
    imported by the source from sibling modules ([./DepInfo],
    [./DepBuilder], [./utils]).  Their effects appear as events; where a
    property needs their behaviour, it is taken from the specification and
    marked as such, or kept as a parameter ([BuildRun]). *)

From Stdlib Require Import Ascii String List.
From stdpp Require Import base option gmap strings list.

Local Open Scope string_scope.

(** ** JavaScript values and strings *)

Module JS.

(** A number, by what this plugin can observe of it: whether ToBoolean
    gives false for it (the zeros and NaN), and the text that ToString gives
    for it. *)
Record Number := {
  falsy : bool;
  text : string
}.

(** The values that reach this plugin through untyped positions
    ([args.mode], [args._], the socket message). *)
#[warnings="-register-all"]
Inductive Val :=
| Undefined
| Null
| Bool (b : bool)
| Num (x : Number)
| Str (s : string)
| Obj (fields : list (string * Val)).

(** ToBoolean. *)
Definition truthy (v : Val) : bool :=
  match v with
  | Undefined | Null => false
  | Bool b => b
  | Num x => negb (falsy x)
  | Str s => negb (String.eqb s "")
  | Obj _ => true
  end.

(** [v === 'lit'] for a string literal. *)
Definition strictEqStr (v : Val) (lit : string) : bool :=
  match v with
  | Str s => String.eqb s lit
  | _ => false
  end.

(** ToString, as used by template literals. *)
Definition toString (v : Val) : string :=
  match v with
  | Undefined => "undefined"
  | Null => "null"
  | Bool true => "true"
  | Bool false => "false"
  | Num x => text x
  | Str s => s
  | Obj _ => "[object Object]"
  end.

(** Truthiness of a string-typed position that may be undefined. *)
Definition truthyStr (o : option string) : bool :=
  match o with
  | Some s => negb (String.eqb s "")
  | None => false
  end.

(** A string-typed position used as a condition and then as a value:
    the string when it is truthy. *)
Definition whenTruthy (o : option string) : option string :=
  if truthyStr o then o else None.

(** [arr[i]] on an array of values: out of range reads give [undefined]. *)
Definition index (arr : list Val) (i : nat) : Val := nth i arr Undefined.

(** [s.startsWith(p)]. *)
Fixpoint startsWith (s p : string) : bool :=
  match p with
  | EmptyString => true
  | String c p' =>
      match s with
      | EmptyString => false
      | String d s' => if Ascii.eqb c d then startsWith s' p' else false
      end
  end.

(** [s.slice(1)]. *)
Definition slice1 (s : string) : string :=
  match s with
  | EmptyString => EmptyString
  | String _ s' => s'
  end.

(** *** The fragment of regular expressions the source uses

    A pattern is a sequence of atoms: a literal character or [.], which
    matches any character except a line terminator. *)
Inductive Atom :=
| Lit (c : ascii)
| AnyChar.

Definition lineTerminator (c : ascii) : bool :=
  Ascii.eqb c "010"%char || Ascii.eqb c "013"%char.

Definition atomMatches (a : Atom) (c : ascii) : bool :=
  match a with
  | Lit x => Ascii.eqb x c
  | AnyChar => negb (lineTerminator c)
  end.

(** Match the atoms at the head of [s]; the rest of [s] on success. *)
Fixpoint matchHead (re : list Atom) (s : string) : option string :=
  match re with
  | [] => Some s
  | a :: re' =>
      match s with
      | EmptyString => None
      | String c s' => if atomMatches a c then matchHead re' s' else None
      end
  end.

(** [/re/.test(s)] for an unanchored pattern: a match at some position. *)
Fixpoint test (re : list Atom) (s : string) : bool :=
  match matchHead re s with
  | Some _ => true
  | None =>
      match s with
      | EmptyString => false
      | String _ s' => test re s'
      end
  end.

Fixpoint lits (s : string) : list Atom :=
  match s with
  | EmptyString => []
  | String c s' => Lit c :: lits s'
  end.

(** The characters with a special meaning in a pattern source. *)
Definition metaChar (c : ascii) : bool :=
  existsb (Ascii.eqb c)
    ["\"%char; "^"%char; "$"%char; "*"%char; "+"%char; "?"%char; "("%char;
     ")"%char; "["%char; "]"%char; "{"%char; "}"%char; "|"%char].

(** The atoms of a pattern source made of ordinary characters and [.];
    [None] for a source that uses any other construct. *)
Fixpoint simplePattern (src : string) : option (list Atom) :=
  match src with
  | EmptyString => Some []
  | String c src' =>
      if metaChar c then None
      else
        match simplePattern src' with
        | Some re =>
            Some ((if Ascii.eqb c "."%char then AnyChar else Lit c) :: re)
        | None => None
        end
  end.

(** [s.replace(/^(?:\.+\/?)+/, '/')]: the greedy match takes every run of
    dots, each optionally followed by one slash.  [skipDots afterDot s] is
    what remains of [s] after the match; [afterDot] tells that the current
    repetition has already taken a dot. *)
Fixpoint skipDots (afterDot : bool) (s : string) : string :=
  match s with
  | String c s' =>
      if Ascii.eqb c "."%char then skipDots true s'
      else if Ascii.eqb c "/"%char && afterDot then skipDots false s'
      else s
  | EmptyString => s
  end.

Definition replaceLeadingDots (s : string) : string :=
  match s with
  | String c _ =>
      if Ascii.eqb c "."%char then "/" +:+ skipDots false s else s
  | EmptyString => s
  end.

End JS.

(** ** Errors and outcomes *)

Inductive Error :=
| AssertionError (msg : string)   (* assert(false, msg) *)
| PlainError (msg : string)       (* new Error(msg) *)
| TypeError (msg : string)
| SyntaxError (msg : string)
| SystemError (code path : string).   (* a failing fs call *)

Inductive Outcome (A : Type) :=
| Returns (a : A)
| Throws (e : Error).
Arguments Returns {A} a.
Arguments Throws {A} e.

(** ** The platform

    Functions of Node and of third-party packages that the plugin calls.
    They are not part of the repository and are taken as given. *)
Class Host := {
  (** [path.join(...segments)] *)
  path_join : list string -> string;
  (** [path.parse(p).ext] *)
  path_parse_ext : string -> string;
  (** [mime.lookup(ext)] *)
  mime_lookup : string -> string;
  (** [new URL(s).pathname]; [None] when the constructor throws *)
  URL_pathname : string -> option string;
  (** [s.replace(new RegExp(src), '/')] for a pattern source outside the
      fragment of [JS.simplePattern]; [None] when the constructor throws *)
  RegExp_replace : string -> string -> option string
}.

(** ** Configuration *)

Record ModeConfig := { output : option string }.

Record MfsuConfig := {
  development : option ModeConfig;
  production : option ModeConfig
}.

Record Api := {
  cwd : string;
  absTmpPath : string;               (* api.paths.absTmpPath *)
  config_publicPath : string;        (* api.config.publicPath *)
  config_mfsu : option MfsuConfig;   (* api.config.mfsu *)
  userConfig_mfsu : option MfsuConfig;       (* api.userConfig.mfsu *)
  userConfig_outputPath : option string      (* api.userConfig.outputPath *)
}.

(** [/\.mfsu/] *)
Definition re_mfsu : list JS.Atom := JS.lits ".mfsu".

(** [mfsu && mfsu.<mode> && mfsu.<mode>.output], as a value that is either
    a truthy string or nothing. *)
Definition configuredOutput (m : option ModeConfig) : option string :=
  match m with
  | Some mc => JS.whenTruthy (output mc)
  | None => None
  end.

Definition checkOutput (o : option string) (msg : string) : Outcome unit :=
  match o with
  | Some out => if JS.test re_mfsu out then Returns tt
                else Throws (AssertionError msg)
  | None => Returns tt
  end.

(** In a template literal the escape [\.] is the character [.]. *)
Definition msg_development_output : string :=
  "[MFSU] mfsu.development.output must match /.mfsu/.".
Definition msg_production_output : string :=
  "[MFSU] mfsu.production.output must match /.mfsu/.".

Definition checkConfig (api : Api) : Outcome unit :=
  let mfsu := config_mfsu api in
  match checkOutput (configuredOutput (mfsu ≫= development))
                    msg_development_output with
  | Throws e => Throws e
  | Returns _ =>
      checkOutput (configuredOutput (mfsu ≫= production))
                  msg_production_output
  end.

Section WithHost.
Context `{Host}.

(** [api.userConfig.mfsu?.<mode>?.output] *)
Definition userOutput (api : Api)
    (sel : MfsuConfig -> option ModeConfig) : option string :=
  (userConfig_mfsu api ≫= sel) ≫= output.

Definition getMfsuPath (api : Api) (mode : string) : string :=
  if String.eqb mode "development" then
    let configPath := userOutput api development in
    match JS.whenTruthy configPath with
    | Some p => path_join [cwd api; p]
    | None => path_join [absTmpPath api; ".cache"; ".mfsu"]
    end
  else
    let configPath := userOutput api production in
    match JS.whenTruthy configPath with
    | Some p => path_join [cwd api; p]
    | None => path_join [cwd api; "./.mfsu-production"]
    end.

Record ReqPathInfo := {
  isMfAssets : bool;
  normalPublicPath : string;
  fileRelativePath : string
}.

(** [/^https?\:\/\//.test(s)] *)
Definition isHttpUrl (s : string) : bool :=
  JS.startsWith s "http://" || JS.startsWith s "https://".

(** The first half of [normalizeReqPath]: the public path made to start
    with a slash. *)
Definition normalizePublicPath (publicPath : string) : Outcome string :=
  if isHttpUrl publicPath then
    match URL_pathname publicPath with
    | Some p => Returns p
    | None => Throws (TypeError "Invalid URL")
    end
  else Returns (JS.replaceLeadingDots publicPath).

(** [reqPath.replace(new RegExp(`^${normalPublicPath}`), '/')] *)
Definition replacePublicPath (npp reqPath : string) : Outcome string :=
  match JS.simplePattern npp with
  | Some re =>
      match JS.matchHead re reqPath with
      | Some rest => Returns ("/" +:+ rest)
      | None => Returns reqPath
      end
  | None =>
      match RegExp_replace ("^" +:+ npp) reqPath with
      | Some s => Returns s
      | None => Throws (SyntaxError "Invalid regular expression")
      end
  end.

Definition normalizeReqPath (api : Api) (reqPath : string)
  : Outcome ReqPathInfo :=
  match normalizePublicPath (config_publicPath api) with
  | Throws e => Throws e
  | Returns npp =>
      let isMf :=
        JS.startsWith reqPath (npp +:+ "mf-va_") ||
        JS.startsWith reqPath (npp +:+ "mf-dep_") ||
        JS.startsWith reqPath (npp +:+ "mf-static/") in
      match replacePublicPath npp reqPath with
      | Throws e => Throws e
      | Returns replaced =>
          Returns {| isMfAssets := isMf;
                     normalPublicPath := npp;
                     fileRelativePath := JS.slice1 replaced |}
      end
  end.

End WithHost.

(** ** The dependency snapshot store *)

(** A dependency set: specifier to the first file that referenced it. *)
Abbreviation Deps := (gmap string string).

(** Modelled from the spec: the state of [DepInfo], the snapshot store:
    the pending set of the current pass ([depInfo.data.deps] where the
    source passes it to the builder), the persisted snapshot, and whether a
    built artifact exists. *)
Record DepInfo := {
  pending : Deps;          (* the set collected in the current pass *)
  persisted : Deps;        (* the cache as last written *)
  artifactExists : bool    (* a built artifact is present on disk *)
}.

(** Modelled from the spec: the class [DepInfo] ([./DepInfo]) is not
    part of the sources at hand.  The fingerprint of a set is
    order-independent; the set of specifiers itself serves as one. *)
Definition fingerprint (d : Deps) : gset string := dom d.

(** Modelled from the spec: [depInfo.loadTmpDeps()], the store's
    [evaluate]: true when the fingerprints of the pending and the persisted
    set differ, or when the pending set is non-empty and no artifact exists
    on disk. *)
Definition loadTmpDeps (d : DepInfo) : bool :=
  bool_decide (fingerprint (pending d) ≠ fingerprint (persisted d))
  || (bool_decide (pending d ≠ ∅) && negb (artifactExists d)).

(** Modelled from the spec: [depInfo.writeCache()], the store's
    [commit]: the persisted snapshot is replaced by the pending set. *)
Definition writeCache (d : DepInfo) : DepInfo :=
  {| pending := pending d;
     persisted := pending d;
     artifactExists := artifactExists d |}.

(** ** Plugin state, events and the effect monad *)

(** The variables of the plugin closure that the reconcile step uses. *)
Record Plugin := {
  mode : string;               (* let mode: TMode *)
  depInfo : DepInfo;           (* let depInfo: DepInfo *)
  depBuilder_tmpDir : string   (* depBuilder.tmpDir *)
}.

Definition setDepInfo (d : DepInfo) (p : Plugin) : Plugin :=
  {| mode := mode p; depInfo := d;
     depBuilder_tmpDir := depBuilder_tmpDir p |}.

(** The effects on the outside world, in the order they happen. *)
Inductive Event :=
| ConsoleLog (msg : string)
| Mkdirp (dir : string)              (* mkdirp.sync(dir) *)
| LoadCache (dir : string)           (* depInfo.loadCache() *)
| Build (deps : Deps)                (* depBuilder.build({deps, ...}) *)
| WriteCache (deps : Deps)           (* depInfo.writeCache() *)
| SockWrite (msg : JS.Val)           (* api.getServer().sockWrite(msg) *)
| Copy (src dst : string).           (* copy(src, dst) *)

Record Run (A : Type) := {
  outcome : Outcome A;
  final : Plugin;
  events : list Event
}.
Arguments outcome {A} r.
Arguments final {A} r.
Arguments events {A} r.

Definition M (A : Type) : Type := Plugin -> Run A.

Definition ret {A} (a : A) : M A :=
  fun p => {| outcome := Returns a; final := p; events := [] |}.

Definition throw {A} (e : Error) : M A :=
  fun p => {| outcome := Throws e; final := p; events := [] |}.

Definition bind {A B} (c : M A) (k : A -> M B) : M B :=
  fun p =>
    let r := c p in
    match outcome r with
    | Returns a =>
        let r' := k a (final r) in
        {| outcome := outcome r'; final := final r';
           events := (events r ++ events r')%list |}
    | Throws e =>
        {| outcome := Throws e; final := final r; events := events r |}
    end.

Notation "x <- c ;; k" := (bind c (fun x => k))
  (at level 100, c at next level, right associativity).
Notation "c ;; k" := (bind c (fun _ => k))
  (at level 100, right associativity).

Definition emit (e : Event) : M unit :=
  fun p => {| outcome := Returns tt; final := p; events := [e] |}.

Definition gets {A} (f : Plugin -> A) : M A :=
  fun p => {| outcome := Returns (f p); final := p; events := [] |}.

Definition modify (f : Plugin -> Plugin) : M unit :=
  fun p => {| outcome := Returns tt; final := f p; events := [] |}.

(** ** The reconcile step *)

Record Stats := { hasErrors : bool }.   (* stats.hasErrors() *)

(** [{ type: 'ok', data: { reload: true } }] *)
Definition reloadMessage : JS.Val :=
  JS.Obj [("type", JS.Str "ok");
          ("data", JS.Obj [("reload", JS.Bool true)])].

(** [depInfo.writeCache()] as an effect. *)
Definition depInfo_writeCache : M unit :=
  d <- gets depInfo ;;
  emit (WriteCache (pending d)) ;;
  modify (setDepInfo (writeCache d)).

(** The [onBuildComplete(err, stats)] callback that [buildDeps] hands to
    the builder.  [err] is null or an error object; [stats] may be
    undefined when [err] is set.  [api.getServer()] is the server of the
    host; its [sockWrite] is recorded as an event. *)
Definition buildDeps_onBuildComplete
    (err : option Error) (stats : option Stats) : M unit :=
  match err with
  | Some _ => ret tt
  | None =>
      match stats with
      | None =>
          throw (TypeError
            "Cannot read properties of undefined (reading 'hasErrors')")
      | Some st =>
          if hasErrors st then ret tt
          else
            depInfo_writeCache ;;
            m <- gets mode ;;
            if String.eqb m "development" then emit (SockWrite reloadMessage)
            else ret tt
      end
  end.

(** What one call of [depBuilder.build] does, seen from its caller: the
    class [DepBuilder] ([./DepBuilder]) is not part of the sources at hand,
    so the invocations of the completion callback it makes and the way its
    promise settles are parameters. *)
Inductive Settles :=
| Resolves
| Rejects (e : Error).

Record BuildRun := {
  completions : list (option Error * option Stats);
  settles : Settles
}.

Fixpoint runCompletions (cb : option Error -> option Stats -> M unit)
    (cs : list (option Error * option Stats)) : M unit :=
  match cs with
  | [] => ret tt
  | (err, stats) :: cs' => cb err stats ;; runCompletions cb cs'
  end.

Definition depBuilder_build (b : BuildRun) (deps : Deps)
    (cb : option Error -> option Stats -> M unit) : M unit :=
  emit (Build deps) ;;
  runCompletions cb (completions b) ;;
  match settles b with
  | Resolves => ret tt
  | Rejects e => throw e
  end.

(** [opts.force], of type [boolean | undefined]. *)
Definition truthyFlag (force : option bool) : bool :=
  match force with
  | Some b => b
  | None => false
  end.

Section Reconcile.
Context `{Host}.

(** [join(api.cwd, api.userConfig.outputPath || './dist')] *)
Definition publishDir (api : Api) : string :=
  path_join [cwd api;
             default "./dist" (JS.whenTruthy (userConfig_outputPath api))].

Definition buildDeps (api : Api) (b : BuildRun) (force : option bool)
  : M unit :=
  shouldBuild <- gets (fun p => loadTmpDeps (depInfo p)) ;;
  (if truthyFlag force || shouldBuild then
     deps <- gets (fun p => pending (depInfo p)) ;;
     depBuilder_build b deps buildDeps_onBuildComplete
   else ret tt) ;;
  m <- gets mode ;;
  if String.eqb m "production" then
    tmp <- gets depBuilder_tmpDir ;;
    emit (Copy tmp (publishDir api))
  else ret tt.

(** [api.onBuildComplete(async ({ err }) => ...)] *)
Definition api_onBuildComplete (api : Api) (b : BuildRun)
    (err : option Error) : M unit :=
  match err with
  | Some _ => ret tt
  | None => buildDeps api b None
  end.

(** [api.onDevCompileDone(async () => ...)] *)
Definition api_onDevCompileDone (api : Api) (b : BuildRun) : M unit :=
  buildDeps api b None.

(** ** The [mfsu] command and the start-up hook *)

Record Args := {
  positional : list JS.Val;   (* args._ *)
  arg_mode : JS.Val;          (* args.mode *)
  arg_force : option bool     (* args.force as boolean *)
}.

Definition mfsuCommand (api : Api) (b : BuildRun) (args : Args) : M unit :=
  let sub := JS.index (positional args) 0 in
  if JS.strictEqStr sub "build" then
    emit (ConsoleLog "[MFSU] build deps...") ;;
    buildDeps api b (arg_force args)
  else
    throw (PlainError
      ("[MFSU] Unsupported subcommand " +:+ JS.toString sub +:+ " for mfsu.")).

(** The part of the file system that [onStart] looks at. *)
Record Disk := {
  dirs : gset string;             (* existing directories *)
  cacheFiles : gmap string Deps;  (* readable cache file, per directory *)
  artifacts : gset string         (* directories holding a built artifact *)
}.

(** The value [onStart] assigns to [mode] before checking it. *)
Definition selectMode (name : string) (args : Args) : JS.Val :=
  if String.eqb name "build" then JS.Str "production"
  else if String.eqb name "mfsu"
          && JS.strictEqStr (JS.index (positional args) 1) "build"
          && JS.truthy (arg_mode args)
  then (if JS.truthy (arg_mode args) then arg_mode args
        else JS.Str "development")
  else JS.Str "development".

(** [['development', 'production'].includes(mode)], with the mode as a
    string when it is one of the two. *)
Definition supportedMode (v : JS.Val) : option string :=
  match v with
  | JS.Str s =>
      if String.eqb s "development" || String.eqb s "production"
      then Some s else None
  | _ => None
  end.

Definition msg_unsupported_mode (v : JS.Val) : string :=
  "[MFSU] Unsupported mode " +:+ JS.toString v
  +:+ ", expect development or production.".

(** Modelled from the spec: [new DepInfo(...)] followed by
    [depInfo.loadCache()]: the persisted snapshot is read from the cache
    directory of the mode, a missing cache being an empty snapshot; the
    pending set starts empty. *)
Definition loadCache (disk : Disk) (tmpDir : string) : DepInfo :=
  {| pending := ∅;
     persisted := default ∅ (cacheFiles disk !! tmpDir);
     artifactExists := bool_decide (tmpDir ∈ artifacts disk) |}.

(** The start-up hook: the plugin state it leaves, or the error it throws,
    and the effects it had.  The two checks are the failures followed here;
    [mkdirp.sync] and the constructors of [DepInfo] and [DepBuilder] are
    followed on their normal return only. *)
Definition onStart (api : Api) (disk : Disk) (name : string) (args : Args)
  : Outcome Plugin * list Event :=
  match checkConfig api with
  | Throws e => (Throws e, [])
  | Returns _ =>
      let v := selectMode name args in
      match supportedMode v with
      | None => (Throws (AssertionError (msg_unsupported_mode v)), [])
      | Some m =>
          let tmpDir := getMfsuPath api m in
          let made :=
            if bool_decide (tmpDir ∈ dirs disk) then []
            else [Mkdirp tmpDir] in
          (Returns {| mode := m;
                      depInfo := loadCache disk tmpDir;
                      depBuilder_tmpDir := tmpDir |},
           (made ++ [LoadCache tmpDir])%list)
      end
  end.

End Reconcile.

(** ** The asset gateway *)

Abbreviation Files := (gmap string string).   (* readable files and their text *)

Record Request := {
  path : string;   (* req.path *)
  url : string     (* req.url *)
}.

Record Response := {
  headers : gmap string string;
  body : option string
}.

(** [res.setHeader(name, value)] *)
Definition setHeader (name value : string) (res : Response) : Response :=
  {| headers := <[name := value]> (headers res); body := body res |}.

(** [res.send(content)] *)
Definition send (content : string) (res : Response) : Response :=
  {| headers := headers res; body := Some content |}.

(** [/remoteEntry.js/]: the dot is a wildcard. *)
Definition re_remoteEntry : list JS.Atom :=
  (JS.lits "remoteEntry" ++ JS.AnyChar :: JS.lits "js")%list.

(** What running the serving callback did: the file it read and the
    response it sent, or the error of the failed read. *)
Record Served := {
  fileRead : string;
  reply : Outcome Response
}.

Section Gateway.
Context `{Host}.

(** The file a managed request is answered from. *)
Definition assetFile (api : Api) (fileRelativePath : string) : string :=
  let mfsuPath := getMfsuPath api "development" in
  path_join [mfsuPath; fileRelativePath].

(** The function the middleware passes to [depBuilder.onBuildComplete].
    [req.path] is a string, so [path || ''] is [path] itself. *)
Definition serveAsset (api : Api) (req : Request) (res : Response)
    (fileRelativePath : string) (fs : Files) : Served :=
  let file := assetFile api fileRelativePath in
  {| fileRead := file;
     reply :=
       match fs !! file with
       | None => Throws (SystemError "ENOENT" file)
       | Some content =>
           let res1 :=
             setHeader "content-type"
                       (mime_lookup (path_parse_ext (path req))) res in
           let res2 :=
             if negb (JS.test re_remoteEntry (url req))
             then setHeader "cache-control" "max-age=31536000,immutable" res1
             else res1 in
           Returns (send content res2)
       end |}.

(** What the middleware does with a request: it calls [next()], or it
    registers a function with [depBuilder.onBuildComplete]. *)
Inductive Handling :=
| CallNext
| OnBuildComplete (fn : Files -> Served).

Definition mfsuMiddleware (api : Api) (req : Request) (res : Response)
  : Outcome Handling :=
  match normalizeReqPath api (path req) with
  | Throws e => Throws e
  | Returns info =>
      if isMfAssets info
      then Returns (OnBuildComplete
                      (serveAsset api req res (fileRelativePath info)))
      else Returns CallNext
  end.

(** *** The builder's completion channel and the server around it *)

Record Waiter := {
  waitingRequest : Request;
  waitingFn : Files -> Served
}.

(** Modelled from the spec: the state of [DepBuilder] that matters to
    the gateway: whether a build is in flight, and the functions waiting
    for its completion. *)
Record DepBuilder := {
  isBuilding : bool;
  waiting : list Waiter
}.

(** Modelled from the spec: [depBuilder.onBuildComplete(fn)] of the class
    [DepBuilder] ([./DepBuilder]), which is not part of the sources at hand.
    While a build is in flight the function waits for the completion
    notification; with no build in flight it runs at once.  The result is
    the new builder and the functions to run now. *)
Definition depBuilder_onBuildComplete (w : Waiter) (b : DepBuilder)
  : DepBuilder * list Waiter :=
  if isBuilding b
  then ({| isBuilding := true; waiting := (waiting b ++ [w])%list |}, [])
  else (b, [w]).

(** What an observer of the server sees. *)
Inductive Obs :=
| Passed (req : Request)                  (* next() was called *)
| Crashed (req : Request) (e : Error)     (* the middleware threw *)
| BuildCompleted                          (* the completion notification *)
| FileRead (req : Request) (file : string)
| Replied (req : Request) (res : Response)
| ReadFailed (req : Request) (e : Error).

Definition isFileRead (o : Obs) : bool :=
  match o with
  | FileRead _ _ => true
  | _ => false
  end.

(** Running a registered function on the files as they are now. *)
Definition fire (fs : Files) (w : Waiter) : list Obs :=
  let s := waitingFn w fs in
  [FileRead (waitingRequest w) (fileRead s);
   match reply s with
   | Returns res => Replied (waitingRequest w) res
   | Throws e => ReadFailed (waitingRequest w) e
   end].

Record Server := {
  builder : DepBuilder;
  files : Files;
  log : list Obs
}.

Inductive Input :=
| Arrives (req : Request) (res : Response)
| BuildStarts
| BuildCompletes (written : Files).   (* the files as the build leaves them *)

(** Modelled from the spec: a build in flight is marked by the builder;
    its completion is broadcast to every waiting function, after which the
    builder is idle again.  A request is handled by [mfsuMiddleware]. *)
Definition step (api : Api) (s : Server) (i : Input) : Server :=
  match i with
  | Arrives req res =>
      match mfsuMiddleware api req res with
      | Throws e =>
          {| builder := builder s; files := files s;
             log := (log s ++ [Crashed req e])%list |}
      | Returns CallNext =>
          {| builder := builder s; files := files s;
             log := (log s ++ [Passed req])%list |}
      | Returns (OnBuildComplete fn) =>
          let '(b, now) :=
            depBuilder_onBuildComplete
              {| waitingRequest := req; waitingFn := fn |} (builder s) in
          {| builder := b; files := files s;
             log := (log s ++ flat_map (fire (files s)) now)%list |}
      end
  | BuildStarts =>
      {| builder := {| isBuilding := true; waiting := waiting (builder s) |};
         files := files s; log := log s |}
  | BuildCompletes written =>
      {| builder := {| isBuilding := false; waiting := [] |};
         files := written;
         log := (log s ++ BuildCompleted
                   :: flat_map (fire written) (waiting (builder s)))%list |}
  end.

Definition run (api : Api) (s : Server) (ins : list Input) : Server :=
  fold_left (step api) ins s.

Definition isCompletion (i : Input) : bool :=
  match i with
  | BuildCompletes _ => true
  | _ => false
  end.

End Gateway.

(** ** The vocabulary of the properties *)

(** [s] contains [p] as a substring. *)
Definition contains (p s : string) : Prop :=
  ∃ before after, s = before +:+ p +:+ after.

(** [s] is a configured output path: the non-empty string at
    [mfsu.development.output] or [mfsu.production.output].  The guards of
    [checkConfig] treat an empty string like an absent path (and the schema
    [joi.string()] admits none). *)
Definition configuredPath (api : Api) (s : string) : Prop :=
  ∃ mfsu mc,
    config_mfsu api = Some mfsu ∧
    (development mfsu = Some mc ∨ production mfsu = Some mc) ∧
    output mc = Some s ∧ s ≠ "".

(** Every configured output path contains [.mfsu]. *)
Definition outputsMatch (api : Api) : Prop :=
  ∀ s, configuredPath api s → contains ".mfsu" s.

(** The three families of managed assets. *)
Definition familyPrefixed (rest : string) : Prop :=
  JS.startsWith rest "mf-va_" = true ∨
  JS.startsWith rest "mf-dep_" = true ∨
  JS.startsWith rest "mf-static/" = true.

(** The completion reports a failure: [err] is set, or the stats have
    errors. *)
Definition failed (err : option Error) (stats : option Stats) : bool :=
  match err, stats with
  | Some _, _ => true
  | None, Some st => hasErrors st
  | None, None => false
  end.

(** The completion reports a success. *)
Definition succeeded (err : option Error) (stats : option Stats) : bool :=
  match err, stats with
  | None, Some st => negb (hasErrors st)
  | _, _ => false
  end.

Definition isSockWrite (e : Event) : Prop := ∃ m, e = SockWrite m.
Definition isWriteCache (e : Event) : Prop := ∃ d, e = WriteCache d.
Definition isBuild (e : Event) : Prop := ∃ d, e = Build d.
Definition isCopy (e : Event) : Prop := ∃ s d, e = Copy s d.

(** [opts.force || shouldBuild] *)
Definition buildNeeded (force : option bool) (p : Plugin) : bool :=
  truthyFlag force || loadTmpDeps (depInfo p).

Section Vocabulary.
Context `{Host}.

(** The copy of the production branch, as a list of events. *)
Definition copyEvents (api : Api) (p : Plugin) : list Event :=
  if String.eqb (mode p) "production"
  then [Copy (depBuilder_tmpDir p) (publishDir api)] else [].

(** The response for a file that can be read. *)
Definition servedResponse (req : Request) (res : Response)
    (content : string) : Response :=
  let res1 :=
    setHeader "content-type" (mime_lookup (path_parse_ext (path req))) res in
  send content
    (if negb (JS.test re_remoteEntry (url req))
     then setHeader "cache-control" "max-age=31536000,immutable" res1
     else res1).

End Vocabulary.

(** Every socket message of a run is the reload message and comes
    directly after a cache write. *)
Definition reloadFollowsWrite (evs : list Event) : Prop :=
  ∀ before m after,
    evs = (before ++ SockWrite m :: after)%list →
    m = reloadMessage ∧ ∃ earlier d, before = (earlier ++ [WriteCache d])%list.

(** [onStart] takes the mode from the arguments: the command is [mfsu],
    the second positional argument is [build], and [args.mode] is truthy. *)
Definition modeTaken (name : string) (args : Args) : bool :=
  String.eqb name "mfsu"
  && JS.strictEqStr (JS.index (positional args) 1) "build"
  && JS.truthy (arg_mode args).

(** ** Concrete inputs *)

(** A small host for evaluating the definitions. *)
Fixpoint lastDot (s : string) : option string :=
  match s with
  | EmptyString => None
  | String c s' =>
      match lastDot s' with
      | Some e => Some e
      | None => if Ascii.eqb c "."%char then Some s else None
      end
  end.

(** A leading [./] of a path segment disappears when segments are joined. *)
Definition dropDotSlash (seg : string) : string :=
  match seg with
  | String "." (String "/" rest) => rest
  | _ => seg
  end.

Definition exampleHost : Host := {|
  path_join := fun segs => String.concat "/" (map dropDotSlash segs);
  path_parse_ext := fun p => default "" (lastDot p);
  mime_lookup := fun ext =>
    if String.eqb ext ".js" then "application/javascript"
    else if String.eqb ext ".css" then "text/css"
    else "application/octet-stream";
  URL_pathname := fun s =>
    if String.eqb s "https://cdn.example.com/app/" then Some "/app/"
    else None;
  RegExp_replace := fun _ _ => None
|}.

Definition exampleApi : Api := {|
  cwd := "/proj";
  absTmpPath := "/proj/src/.umi";
  config_publicPath := "/";
  config_mfsu := Some {| development := None; production := None |};
  userConfig_mfsu := Some {| development := None; production := None |};
  userConfig_outputPath := None
|}.

Definition exampleReq : Request :=
  {| path := "/mf-va_remoteEntry.js"; url := "/mf-va_remoteEntry.js?t=1" |}.

Definition exampleRes : Response := {| headers := ∅; body := None |}.

Definition exampleInfo : ReqPathInfo :=
  {| isMfAssets := true; normalPublicPath := "/";
     fileRelativePath := "mf-va_remoteEntry.js" |}.

Definition exampleFiles : Files :=
  {[ "/proj/src/.umi/.cache/.mfsu/mf-va_remoteEntry.js" := "entry();";
     "/proj/src/.umi/.cache/.mfsu/mf-dep_vendors.3f2a.js" := "vendors();" ]}.

Definition exampleChunkReq : Request :=
  {| path := "/mf-dep_vendors.3f2a.js"; url := "/mf-dep_vendors.3f2a.js" |}.

Definition emptyDisk : Disk :=
  {| dirs := ∅; cacheFiles := ∅; artifacts := ∅ |}.

Definition noArgs : Args :=
  {| positional := []; arg_mode := JS.Undefined; arg_force := None |}.

(** The plugin state after [umi build] has started on an empty disk. *)
Definition freshProduction : Plugin :=
  {| mode := "production";
     depInfo := {| pending := ∅; persisted := ∅; artifactExists := false |};
     depBuilder_tmpDir := "/proj/.mfsu-production" |}.

Definition okBuild : BuildRun :=
  {| completions := [(None, Some {| hasErrors := false |})];
     settles := Resolves |}.

Definition rejectedBuild : BuildRun :=
  {| completions := [(Some (PlainError "Module not found"), None)];
     settles := Rejects (PlainError "Module not found") |}.

(** [umi mfsu build --mode staging --force], with the positional arguments
    that the command dispatches on: [args._[0]] is the subcommand. *)
Definition stagingArgs : Args :=
  {| positional := [JS.Str "build"]; arg_mode := JS.Str "staging";
     arg_force := Some true |}.

Definition freshDevelopment : Plugin :=
  {| mode := "development";
     depInfo := {| pending := ∅; persisted := ∅; artifactExists := false |};
     depBuilder_tmpDir := "/proj/src/.umi/.cache/.mfsu" |}.

Definition rejectedArgs : Args :=
  {| positional := [JS.Str "mfsu"; JS.Str "build"];
     arg_mode := JS.Str "staging"; arg_force := None |}.

Definition buildingServer : Server :=
  {| builder := {| isBuilding := true; waiting := [] |};
     files := ∅; log := [] |}.

Definition idleServer : Server :=
  {| builder := {| isBuilding := false; waiting := [] |};
     files := exampleFiles; log := [] |}.

Definition pageReq : Request := {| path := "/umi.js"; url := "/umi.js" |}.

Definition exampleInputs : list Input :=
  [Arrives pageReq exampleRes; BuildStarts].

Definition devArgs : Args :=
  {| positional := []; arg_mode := JS.Undefined; arg_force := None |}.

(** The pending set equals the persisted set. *)
Definition settledDevelopment : Plugin :=
  {| mode := "development";
     depInfo := {| pending := {[ "react" := "@/pages/index.tsx" ]};
                   persisted := {[ "react" := "@/app.tsx" ]};
                   artifactExists := true |};
     depBuilder_tmpDir := "/proj/src/.umi/.cache/.mfsu" |}.

Definition brokenBuild : BuildRun :=
  {| completions := [(None, Some {| hasErrors := true |})];
     settles := Resolves |}.


(** ** The remaining hooks of the plugin *)

Section PathSegments.

(** The segments that [getMfsuPath] hands to [join]. *)
Definition mfsuPathSegments (api : Api) (mode : string) : list string :=
  if String.eqb mode "development" then
    match JS.whenTruthy ((userConfig_mfsu api ≫= development) ≫= output) with
    | Some p => [cwd api; p]
    | None => [absTmpPath api; ".cache"; ".mfsu"]
    end
  else
    match JS.whenTruthy ((userConfig_mfsu api ≫= production) ≫= output) with
    | Some p => [cwd api; p]
    | None => [cwd api; "./.mfsu-production"]
    end.

End PathSegments.

(** A project served under a versioned public path. *)
Definition dottedApi : Api :=
  {| cwd := "/proj"; absTmpPath := "/proj/src/.umi";
     config_publicPath := "./v1.2/";
     config_mfsu := None; userConfig_mfsu := None;
     userConfig_outputPath := None |}.

Definition dottedReq : Request :=
  {| path := "/v1.2/mf-static/logo.png"; url := "/v1.2/mf-static/logo.png" |}.

Definition dottedInfo : ReqPathInfo :=
  {| isMfAssets := true; normalPublicPath := "/v1.2/";
     fileRelativePath := "mf-static/logo.png" |}.

(** A project that keeps its production cache in a directory of its own. *)
Definition customDirApi : Api :=
  {| cwd := "/proj"; absTmpPath := "/proj/src/.umi";
     config_publicPath := "/";
     config_mfsu :=
       Some {| development := None;
               production := Some {| output := Some "build/.mfsu-prod" |} |};
     userConfig_mfsu :=
       Some {| development := None;
               production := Some {| output := Some "build/.mfsu-prod" |} |};
     userConfig_outputPath := None |}.

(** *** Configuration values and [modifyConfig] *)

(** The values of the framework configuration. *)
#[warnings="-register-all"]
Inductive Data :=
| DUndefined
| DNull
| DBool (b : bool)
| DStr (s : string)
| DArr (items : list Data)
| DObj (fields : list (string * Data)).

(** ToBoolean: arrays and objects are truthy, also when empty. *)
Definition truthyData (d : Data) : bool :=
  match d with
  | DUndefined | DNull => false
  | DBool b => b
  | DStr s => negb (String.eqb s "")
  | DArr _ | DObj _ => true
  end.

(** The value of an own property in an object written as a list of
    fields. *)
Fixpoint fieldOf {V} (k : string) (fields : list (string * V)) : option V :=
  match fields with
  | [] => None
  | (k', v) :: fields' => if String.eqb k' k then Some v else fieldOf k fields'
  end.

(** [memo.key] on the configuration object. *)
Definition configGet (memo : gmap string Data) (key : string) : Data :=
  default DUndefined (memo !! key).

(** [memo.mfsu?.chunks] *)
Definition mfsuChunks (memo : gmap string Data) : Data :=
  match configGet memo "mfsu" with
  | DObj fields => default DUndefined (fieldOf "chunks" fields)
  | _ => DUndefined
  end.

(** The function registered with [api.modifyConfig]. *)
Definition modifyConfig (memo : gmap string Data) : gmap string Data :=
  let dynamicImport :=
    if truthyData (configGet memo "dynamicImport")
    then configGet memo "dynamicImport" else DObj [] in
  let chunks :=
    if truthyData (mfsuChunks memo) then mfsuChunks memo
    else DArr [DStr "umi"] in
  <["chunks" := chunks]> (<["dynamicImport" := dynamicImport]> memo).

(** *** [modifyBabelOpts] *)

(** [obj.key = value] on an object written as a list of fields. *)
Fixpoint setField {V} (k : string) (v : V) (fields : list (string * V))
  : list (string * V) :=
  match fields with
  | [] => [(k, v)]
  | (k', v') :: fields' =>
      if String.eqb k' k then (k, v) :: fields'
      else (k', v') :: setField k v fields'
  end.

(** The options object of a preset: its [env] object, when it has one,
    and its other fields. *)
Record PresetOptions := {
  presetEnv : option (list (string * JS.Val));
  presetOther : list (string * JS.Val)
}.

(** A preset is named by its module path, alone or in an array with its
    options. *)
Inductive PresetItem :=
| PresetName (name : string)
| PresetTuple (name : string) (options : option PresetOptions).

Inductive BabelPlugin :=
| BabelPluginWarnRequire
| BabelPluginAutoExport
| BabelImportRedirectPlugin (redirect : JS.Val)
    (* with the options {umi, dumi, '@alipay/bigfish'}, all [redirect] *)
| UserPlugin (id : string).

Record BabelOpts := {
  babelPresets : option (list PresetItem);
  babelPlugins : option (list BabelPlugin)
}.

(** [/babel-preset-umi/] *)
Definition re_babelPresetUmi : list JS.Atom := JS.lits "babel-preset-umi".

(** The body of the [forEach] over the presets. *)
Definition lowerPreset (preset : PresetItem) : Outcome PresetItem :=
  match preset with
  | PresetTuple name options =>
      if JS.test re_babelPresetUmi name then
        match options with
        | None =>
            Throws (TypeError
              "Cannot read properties of undefined (reading 'env')")
        | Some o =>
            match presetEnv o with
            | None =>
                Throws (TypeError
                  "Cannot set properties of undefined (setting 'useBuiltIns')")
            | Some env =>
                Returns (PresetTuple name
                  (Some {| presetEnv :=
                             Some (setField "useBuiltIns" (JS.Bool false) env);
                           presetOther := presetOther o |}))
            end
        end
      else Returns preset
  | PresetName _ => Returns preset
  end.

Fixpoint lowerPresets (presets : list PresetItem)
  : Outcome (list PresetItem) :=
  match presets with
  | [] => Returns []
  | preset :: rest =>
      match lowerPreset preset with
      | Throws e => Throws e
      | Returns preset' =>
          match lowerPresets rest with
          | Throws e => Throws e
          | Returns rest' => Returns (preset' :: rest')
          end
      end
  end.

(** The function registered with [api.modifyBabelOpts].  [coreJs] and
    [regenerator] are what [require.resolve] finds; [umiRedirect] is the
    result of [getUmiRedirect], which may fail.  The result is the alias
    table of the closure as the call leaves it, and the options returned or
    the error thrown. *)
Definition modifyBabelOpts (coreJs regenerator : string)
    (umiRedirect : Outcome JS.Val) (webpackAlias : gmap string string)
    (opts : BabelOpts) : gmap string string * Outcome BabelOpts :=
  let alias :=
    <["regenerator-runtime/runtime" := regenerator]>
      (<["core-js" := coreJs]> webpackAlias) in
  (alias,
   match umiRedirect with
   | Throws e => Throws e
   | Returns redirect =>
       match
         match babelPresets opts with
         | Some presets =>
             match lowerPresets presets with
             | Returns presets' => Returns (Some presets')
             | Throws e => Throws e
             end
         | None => Returns None
         end
       with
       | Throws e => Throws e
       | Returns presets' =>
           match babelPlugins opts with
           | None => Throws (TypeError "opts.plugins is not iterable")
           | Some plugins =>
               Returns {| babelPresets := presets';
                          babelPlugins :=
                            Some (BabelPluginWarnRequire
                                  :: BabelPluginAutoExport
                                  :: BabelImportRedirectPlugin redirect
                                  :: plugins) |}
           end
       end
   end).

(** *** [modifyBundleConfig] *)

(** [BundlerConfigType] of the framework. *)
Inductive BundlerConfigType := csr | ssr.

Inductive WebpackPlugin :=
| ModuleFederationPlugin (name : string) (remotes : list (string * string))
| MonacoEditorWebpackPluginHack
| OtherPlugin (constructorName : string).

(** [plugin.constructor.name] *)
Definition constructorNameOf (plugin : WebpackPlugin) : string :=
  match plugin with
  | ModuleFederationPlugin _ _ => "ModuleFederationPlugin"
  | MonacoEditorWebpackPluginHack => "MonacoEditorWebpackPluginHack"
  | OtherPlugin n => n
  end.

(** [memo.externals]: an array, or a single value that may be undefined. *)
Inductive Externals :=
| ExternalsArray (items : list JS.Val)
| ExternalsValue (v : JS.Val).

(** What is pushed on [webpackExternals]:
    [Array.isArray(externals) ? externals : [externals]] for
    [externals = memo.externals || {}]. *)
Definition externalsList (e : Externals) : list JS.Val :=
  match e with
  | ExternalsArray items => items
  | ExternalsValue v => [if JS.truthy v then v else JS.Obj []]
  end.

Record BundleConfig := {
  resolve_alias : option (gmap string string);   (* memo.resolve.alias *)
  externals : Externals;                          (* memo.externals *)
  output_publicPath : string;                     (* memo.output.publicPath *)
  bundlePlugins : list WebpackPlugin              (* memo.plugins *)
}.

(** The variables of the plugin closure that the bundler hooks share. *)
Record Closure := {
  webpackAlias : gmap string string;
  webpackExternals : list JS.Val;
  publicPath : string
}.

Definition isMonacoPlugin (plugin : WebpackPlugin) : bool :=
  String.eqb (constructorNameOf plugin) "MonacoEditorWebpackPlugin".

Record Tap := { tapType : string; tapName : string }.

(** [MonacoEditorWebpackPluginHack.apply]: the new [compiler.hooks.make.taps]. *)
Definition monacoHack_apply (taps : list Tap) : list Tap :=
  List.filter
    (λ tap, negb (String.eqb (tapName tap) "AddWorkerEntryPointPlugin")) taps.

Section BundleConfig.
(** The constants of [./constants], which is not part of the sources at
    hand. *)
Variable DEFAULT_MF_NAME : string.
Variable MF_VA_PREFIX : string.

(** [(api.config.mfsu && api.config.mfsu.mfName) || DEFAULT_MF_NAME], for
    the value [mfName] of the first operand. *)
Definition remoteName (mfName : option string) : string :=
  default DEFAULT_MF_NAME (JS.whenTruthy mfName).

(** The file of the remote entry, as the federation plugin names it. *)
Definition remoteEntryFile : string := MF_VA_PREFIX +:+ "remoteEntry.js".

(** The function registered under [modifyBundleConfig]: the configuration
    it returns and the closure as it leaves it. *)
Definition modifyBundleConfig (mfName : option string) (memo : BundleConfig)
    (type : BundlerConfigType) (mfsu : bool) (c : Closure)
  : BundleConfig * Closure :=
  match type with
  | csr =>
      let c' :=
        {| webpackAlias := default ∅ (resolve_alias memo) ∪ webpackAlias c;
           webpackExternals :=
             (webpackExternals c ++ externalsList (externals memo))%list;
           publicPath := output_publicPath memo |} in
      if mfsu then (memo, c')
      else
        let name := remoteName mfName in
        let federated :=
          (bundlePlugins memo
           ++ [ModuleFederationPlugin "umi-app"
                 [(name, name +:+ "@" +:+ remoteEntryFile)]])%list in
        let plugins :=
          if existsb isMonacoPlugin federated
          then (federated ++ [MonacoEditorWebpackPluginHack])%list
          else federated in
        ({| resolve_alias := resolve_alias memo;
            externals := externals memo;
            output_publicPath := output_publicPath memo;
            bundlePlugins := plugins |}, c')
  | ssr => (memo, c)
  end.

End BundleConfig.

(** *** [modifyBabelPresetOpts] *)

(** The options of the import plugin.  The shared tables [webpackAlias]
    and [webpackExternals] are handed over by reference and are the ones of
    the closure; the callback [onTransformDeps] is modelled on its own
    below. *)
Record ImportToAwaitRequire := {
  cfg_remoteName : string;
  cfg_matchAll : bool;
  cfg_alias : gmap string string;
  cfg_exportAllMembers : JS.Val
}.

Inductive PresetOpt :=
| OtherOpt (v : JS.Val)
| ImportToAwaitRequireOpt (cfg : ImportToAwaitRequire).

Section BabelPresetOpts.
(** The constant of [./constants], which is not part of the sources at
    hand. *)
Variable DEFAULT_MF_NAME : string.

(** The function registered with [api.modifyBabelPresetOpts].  [mfName] is
    the value of [api.config.mfsu && api.config.mfsu.mfName],
    [exportAllMembers] that of [api.config.mfsu?.exportAllMembers], and
    [mfsu] is [args.mfsu]. *)
Definition modifyBabelPresetOpts (api : Api) (mfName : option string)
    (exportAllMembers : JS.Val) (opts : gmap string PresetOpt) (mfsu : bool)
  : gmap string PresetOpt :=
  if mfsu then opts
  else
    <["importToAwaitRequire" :=
        ImportToAwaitRequireOpt
          {| cfg_remoteName := default DEFAULT_MF_NAME (JS.whenTruthy mfName);
             cfg_matchAll := true;
             cfg_alias := {[ cwd api := "$CWD$" ]};
             cfg_exportAllMembers := exportAllMembers |}]> opts.

End BabelPresetOpts.

(** *** [onTransformDeps] *)

(** [s.replace(pattern, replacement)] for a string pattern and a
    replacement without [$]: the first occurrence is replaced. *)
Fixpoint replaceFirst (pattern replacement s : string) : string :=
  match JS.matchHead (JS.lits pattern) s with
  | Some rest => replacement +:+ rest
  | None =>
      match s with
      | EmptyString => s
      | String c s' => String c (replaceFirst pattern replacement s')
      end
  end.

Record TransformedDep := {
  dep_file : string;
  dep_source : string;
  dep_isMatch : bool
}.

Inductive DepEffect :=
| LogImport (msg : string)               (* console.log(msg) *)
| AddTmpDep (source file : string).      (* depInfo.addTmpDep(source, file) *)

Section TransformDeps.
(** [chalk[color](text)] *)
Variable chalk : string -> string -> string.

(** The [onTransformDeps] callback handed to the import plugin.
    [absSrcPath] is [api.paths.absSrcPath], [MFSU_DEBUG] the environment
    variable of that name. *)
Definition onTransformDeps (absSrcPath : string) (MFSU_DEBUG : option string)
    (opts : TransformedDep) : list DepEffect :=
  let file := replaceFirst (absSrcPath +:+ "/") "@/" (dep_file opts) in
  let collect :=
    if dep_isMatch opts then [AddTmpDep (dep_source opts) file] else [] in
  if JS.truthyStr MFSU_DEBUG && negb (JS.startsWith (dep_source opts) ".")
  then
    if bool_decide (MFSU_DEBUG = Some "MATCHED") && negb (dep_isMatch opts)
    then []
    else if bool_decide (MFSU_DEBUG = Some "UNMATCHED") && dep_isMatch opts
    then []
    else
      (LogImport
         ("> import "
          +:+ chalk (if dep_isMatch opts then "green" else "red")
                (dep_source opts)
          +:+ " from " +:+ file +:+ ", "
          +:+ (if dep_isMatch opts then "MATCHED" else "UNMATCHED"))
       :: collect)%list
  else collect.

End TransformDeps.

(** *** The vocabulary of the further properties *)

(** What [modifyBabelOpts] does to one preset. *)
Definition presetLowered (preset preset' : PresetItem) : Prop :=
  match preset with
  | PresetTuple name options =>
      if JS.test re_babelPresetUmi name then
        ∃ o env env',
          options = Some o ∧ presetEnv o = Some env ∧
          preset' = PresetTuple name
                      (Some {| presetEnv := Some env';
                               presetOther := presetOther o |}) ∧
          fieldOf "useBuiltIns" env' = Some (JS.Bool false) ∧
          ∀ k, k ≠ "useBuiltIns" → fieldOf k env' = fieldOf k env
      else preset' = preset
  | PresetName _ => preset' = preset
  end.

(** A preset of the umi family given in an array without options, or with
    options that have no [env]. *)
Definition presetUnusable (preset : PresetItem) : Prop :=
  match preset with
  | PresetTuple name options =>
      JS.test re_babelPresetUmi name = true ∧
      match options with
      | None => True
      | Some o => presetEnv o = None
      end
  | PresetName _ => False
  end.

(** The number [3] of the preset option [corejs: 3]. *)
Definition corejs3 : JS.Val := JS.Num {| JS.falsy := false; JS.text := "3" |}.

Definition examplePresets : list PresetItem :=
  [PresetTuple "/n/@umijs/babel-preset-umi/app.js"
     (Some {| presetEnv := Some [("useBuiltIns", JS.Str "entry");
                                 ("corejs", corejs3)];
              presetOther := [] |});
   PresetName "@babel/preset-typescript"].

Definition exampleBabelOpts : BabelOpts :=
  {| babelPresets := Some examplePresets;
     babelPlugins := Some [UserPlugin "lodash"] |}.

Definition emptyClosure : Closure :=
  {| webpackAlias := ∅; webpackExternals := []; publicPath := "/" |}.

Definition monacoConfig : BundleConfig :=
  {| resolve_alias := None;
     externals := ExternalsValue JS.Undefined;
     output_publicPath := "/";
     bundlePlugins := [OtherPlugin "MonacoEditorWebpackPlugin";
                       OtherPlugin "HtmlWebpackPlugin"] |}.
(** * Properties *)

(** ** Strings and patterns *)

Lemma append_nil (r : string) : "" +:+ r = r.
Proof. reflexivity. Qed.

Lemma append_cons (c : ascii) (a r : string) :
  String c a +:+ r = String c (a +:+ r).
Proof. reflexivity. Qed.

Lemma startsWith_app (s a b : string) :
  JS.startsWith s (a +:+ b) = true ↔
  ∃ rest, s = a +:+ rest ∧ JS.startsWith rest b = true.
Proof.
  revert s. induction a as [|c a IH]; intros s.
  - rewrite append_nil. split.
    + intros Hb. exists s. rewrite append_nil. auto.
    + intros (rest & Hs & Hb). rewrite append_nil in Hs. congruence.
  - rewrite append_cons. destruct s as [|d s]; simpl.
    + split; [discriminate | intros (rest & Hs & _); discriminate].
    + destruct (Ascii.eqb c d) eqn:E.
      * apply Ascii.eqb_eq in E; subst d. rewrite IH.
        split; intros (rest & Hs & Hb); exists rest; split; auto;
          rewrite append_cons in *; congruence.
      * split; [discriminate |].
        intros (rest & Hs & _). rewrite append_cons in Hs.
        injection Hs as -> _.
        rewrite Ascii.eqb_refl in E. discriminate.
Qed.

Lemma matchHead_lits (p s r : string) :
  JS.matchHead (JS.lits p) s = Some r ↔ s = p +:+ r.
Proof.
  revert s. induction p as [|c p IH]; intros s; simpl.
  - rewrite append_nil. split; congruence.
  - rewrite append_cons. destruct s as [|d s]; [split; discriminate|].
    destruct (Ascii.eqb c d) eqn:E.
    + apply Ascii.eqb_eq in E; subst d. rewrite IH.
      split; intros Hs; congruence.
    + split; [discriminate|]. intros Hs. injection Hs as -> _.
      rewrite Ascii.eqb_refl in E. discriminate.
Qed.

(** A pattern of literal characters tests for a substring. *)
Lemma test_lits (p s : string) :
  JS.test (JS.lits p) s = true ↔ contains p s.
Proof.
  induction s as [|d s IH]; simpl.
  - destruct (JS.matchHead (JS.lits p) "") as [r|] eqn:E.
    + apply matchHead_lits in E. split; [intros _|auto].
      exists "", r. exact E.
    + split; [discriminate|]. intros (a & b & Hs).
      destruct a; [|discriminate]. rewrite append_nil in Hs.
      apply matchHead_lits in Hs. congruence.
  - destruct (JS.matchHead (JS.lits p) (String d s)) as [r|] eqn:E.
    + apply matchHead_lits in E. split; [intros _|auto].
      exists "", r. exact E.
    + rewrite IH. split.
      * intros (a & b & Hs). exists (String d a), b.
        rewrite append_cons. congruence.
      * intros (a & b & Hs). destruct a as [|c a].
        -- rewrite append_nil in Hs.
           apply matchHead_lits in Hs. congruence.
        -- rewrite append_cons in Hs. injection Hs as _ Hs.
           exists a, b. exact Hs.
Qed.

Lemma simplePattern_lits (p : string) :
  (∀ c, In c (list_ascii_of_string p) →
        JS.metaChar c = false ∧ c ≠ "."%char) →
  JS.simplePattern p = Some (JS.lits p).
Proof.
  induction p as [|c p IH]; simpl; intros Hp; [reflexivity|].
  destruct (Hp c (or_introl eq_refl)) as [Hm Hd].
  rewrite Hm, IH by (intros; apply Hp; right; assumption).
  destruct (Ascii.eqb c ".") eqn:E; [|reflexivity].
  apply Ascii.eqb_eq in E. contradiction.
Qed.

(** ** [checkConfig] *)

Lemma checkOutput_returns (o : option string) (msg : string) :
  checkOutput o msg = Returns tt ↔ ∀ s, o = Some s → contains ".mfsu" s.
Proof.
  unfold checkOutput. destruct o as [out|].
  - destruct (JS.test re_mfsu out) eqn:E.
    + apply test_lits in E. split; [|reflexivity].
      intros _ s [= <-]. exact E.
    + split; [discriminate|]. intros Hs.
      apply (proj2 (test_lits ".mfsu" out)) in Hs; [|reflexivity].
      unfold re_mfsu in E. congruence.
  - split; [intros _ s; discriminate | reflexivity].
Qed.

Lemma whenTruthy_Some (o : option string) (s : string) :
  JS.whenTruthy o = Some s ↔ o = Some s ∧ s ≠ "".
Proof.
  unfold JS.whenTruthy, JS.truthyStr. destruct o as [x|].
  - destruct (String.eqb x "") eqn:E; simpl.
    + apply String.eqb_eq in E. subst x. split; [discriminate|].
      intros [[= <-] Hne]. contradiction.
    + apply String.eqb_neq in E. split.
      * intros [= <-]. auto.
      * intros [Hs _]. exact Hs.
  - simpl. split; [discriminate | intros [? _]; discriminate].
Qed.

Lemma configuredPath_cases (api : Api) (s : string) :
  configuredPath api s ↔
  configuredOutput (config_mfsu api ≫= development) = Some s
  ∨ configuredOutput (config_mfsu api ≫= production) = Some s.
Proof.
  unfold configuredPath, configuredOutput. split.
  - intros (mfsu & mc & -> & [Hd|Hp] & Ho & Hne); [left|right]; simpl;
      rewrite ?Hd, ?Hp; apply whenTruthy_Some; auto.
  - destruct (config_mfsu api) as [mfsu|]; simpl;
      [|intros [H|H]; discriminate].
    intros [Hd|Hp].
    + destruct (development mfsu) as [mc|] eqn:E; [|discriminate].
      apply whenTruthy_Some in Hd as [Ho Hne]. exists mfsu, mc. auto.
    + destruct (production mfsu) as [mc|] eqn:E; [|discriminate].
      apply whenTruthy_Some in Hp as [Ho Hne]. exists mfsu, mc. auto.
Qed.

Lemma checkOutput_cases (o : option string) (msg : string) :
  checkOutput o msg = Returns tt ∨
  checkOutput o msg = Throws (AssertionError msg).
Proof.
  unfold checkOutput. destruct o as [out|]; [|left; reflexivity].
  destruct (JS.test re_mfsu out); [left|right]; reflexivity.
Qed.

(** C10. [checkConfig] returns without error when every configured mfsu
    output path ([mfsu.development.output], [mfsu.production.output])
    contains the substring [.mfsu] or is absent, and throws an assertion
    error as soon as one configured output path does not contain it; the
    development path is checked first. *)
Theorem checkConfig_outputs (api : Api) :
  (outputsMatch api → checkConfig api = Returns tt) ∧
  (¬ outputsMatch api →
     checkConfig api = Throws (AssertionError msg_development_output) ∨
     checkConfig api = Throws (AssertionError msg_production_output)).
Proof.
  unfold checkConfig, outputsMatch.
  pose proof (configuredPath_cases api) as Hcfg.
  set (dev := configuredOutput (config_mfsu api ≫= development)) in *.
  set (prod := configuredOutput (config_mfsu api ≫= production)) in *.
  split.
  - intros Hall.
    assert (Hd : checkOutput dev msg_development_output = Returns tt)
      by (apply checkOutput_returns; intros s Hs; apply Hall, Hcfg; auto).
    rewrite Hd. apply checkOutput_returns. intros s Hs.
    apply Hall, Hcfg; auto.
  - intros Hnot.
    destruct (checkOutput_cases dev msg_development_output) as [Hd|Hd];
      rewrite Hd; [|left; reflexivity].
    destruct (checkOutput_cases prod msg_production_output) as [Hp|Hp];
      rewrite Hp; [|right; reflexivity].
    exfalso. apply Hnot. intros s [Hs|Hs]%Hcfg.
    + exact (proj1 (checkOutput_returns _ _) Hd s Hs).
    + exact (proj1 (checkOutput_returns _ _) Hp s Hs).
Qed.

Example checkConfig_rejects_dist :
  checkConfig
    {| cwd := "/proj"; absTmpPath := "/proj/src/.umi";
       config_publicPath := "/";
       config_mfsu :=
         Some {| development := Some {| output := Some "./dist/cache" |};
                 production := None |};
       userConfig_mfsu := None; userConfig_outputPath := None |}
  = Throws (AssertionError msg_development_output).
Proof. reflexivity. Qed.

Example checkConfig_accepts_mfsu_dir :
  checkConfig
    {| cwd := "/proj"; absTmpPath := "/proj/src/.umi";
       config_publicPath := "/";
       config_mfsu :=
         Some {| development := Some {| output := Some "./.mfsu-dev" |};
                 production := Some {| output := Some "out/.mfsu" |} |};
       userConfig_mfsu := None; userConfig_outputPath := None |}
  = Returns tt.
Proof. reflexivity. Qed.

(** ** Request classification *)

Section Classification.
Context `{Host}.

Lemma normalizeReqPath_inv (api : Api) (reqPath : string)
    (info : ReqPathInfo) :
  normalizeReqPath api reqPath = Returns info →
  normalizePublicPath (config_publicPath api)
    = Returns (normalPublicPath info) ∧
  isMfAssets info =
    JS.startsWith reqPath (normalPublicPath info +:+ "mf-va_") ||
    JS.startsWith reqPath (normalPublicPath info +:+ "mf-dep_") ||
    JS.startsWith reqPath (normalPublicPath info +:+ "mf-static/") ∧
  ∃ replaced,
    replacePublicPath (normalPublicPath info) reqPath = Returns replaced ∧
    fileRelativePath info = JS.slice1 replaced.
Proof.
  unfold normalizeReqPath.
  destruct (normalizePublicPath (config_publicPath api)) as [npp|e];
    [|discriminate].
  destruct (replacePublicPath npp reqPath) as [replaced|e] eqn:E;
    [|discriminate].
  intros [= <-]. simpl. repeat split; eauto.
Qed.

(** C6. The prefix that the classification strips is the normalized
    form of [api.config.publicPath]: the path of the URL when the public
    path is an [http(s)] URL, and otherwise the public path with its leading
    run of dots and slashes replaced by one slash.  A request path is
    classified as a managed asset exactly when it is that prefix followed by
    a rest that begins with [mf-va_], [mf-dep_] or [mf-static/]; a request
    that is not classified as managed is handed to [next()] and nothing else
    happens. *)
Theorem normalizeReqPath_classifies (api : Api) (req : Request)
    (res : Response) (info : ReqPathInfo) :
  normalizeReqPath api (path req) = Returns info →
  (isHttpUrl (config_publicPath api) = true →
     URL_pathname (config_publicPath api) = Some (normalPublicPath info)) ∧
  (isHttpUrl (config_publicPath api) = false →
     normalPublicPath info = JS.replaceLeadingDots (config_publicPath api)) ∧
  (isMfAssets info = true ↔
     ∃ rest, path req = normalPublicPath info +:+ rest ∧
             familyPrefixed rest) ∧
  (isMfAssets info = false →
     mfsuMiddleware api req res = Returns CallNext).
Proof.
  intros Hn.
  destruct (normalizeReqPath_inv _ _ _ Hn) as (Hnpp & His & _).
  unfold normalizePublicPath in Hnpp.
  split; [|split; [|split]].
  - intros Hurl. rewrite Hurl in Hnpp.
    destruct (URL_pathname (config_publicPath api)); [|discriminate].
    by injection Hnpp as ->.
  - intros Hurl. rewrite Hurl in Hnpp. by injection Hnpp as <-.
  - rewrite His, !orb_true_iff, !startsWith_app. unfold familyPrefixed.
    split.
    + intros [[(rest & Hp & Hs)|(rest & Hp & Hs)]|(rest & Hp & Hs)];
        exists rest; auto.
    + intros (rest & Hp & [Hs|[Hs|Hs]]); eauto.
  - intros Hf. unfold mfsuMiddleware. rewrite Hn, Hf. reflexivity.
Qed.

(** With a public path that holds no pattern character, the relative
    path of a managed asset is the rest after the public path. *)
Lemma normalizeReqPath_relative (api : Api) (reqPath rest : string)
    (info : ReqPathInfo) :
  normalizeReqPath api reqPath = Returns info →
  JS.simplePattern (normalPublicPath info)
    = Some (JS.lits (normalPublicPath info)) →
  reqPath = normalPublicPath info +:+ rest →
  fileRelativePath info = rest.
Proof.
  intros Hn Hlit Hp.
  destruct (normalizeReqPath_inv _ _ _ Hn) as (_ & _ & replaced & Hr & ->).
  unfold replacePublicPath in Hr. rewrite Hlit in Hr.
  apply matchHead_lits in Hp. rewrite Hp in Hr.
  injection Hr as <-. reflexivity.
Qed.

End Classification.

Lemma normalizeReqPath_classifies_witness :
  @normalizeReqPath exampleHost dottedApi (path dottedReq)
    = Returns dottedInfo ∧
  config_publicPath dottedApi = "./v1.2/" ∧
  normalPublicPath dottedInfo = "/v1.2/" ∧
  normalPublicPath dottedInfo
    = JS.replaceLeadingDots (config_publicPath dottedApi) ∧
  (isMfAssets dottedInfo = true ↔
     ∃ rest, path dottedReq = normalPublicPath dottedInfo +:+ rest ∧
             familyPrefixed rest).
Proof.
  split; [reflexivity|]. split; [reflexivity|]. split; [reflexivity|].
  destruct (@normalizeReqPath_classifies exampleHost dottedApi dottedReq
              exampleRes dottedInfo eq_refl) as (_ & Hdots & Hiff & _).
  split; [exact (Hdots eq_refl) | exact Hiff].
Defined.

Example classify_application_chunk :
  @normalizeReqPath exampleHost exampleApi "/umi.js"
  = Returns {| isMfAssets := false; normalPublicPath := "/";
               fileRelativePath := "umi.js" |}.
Proof. reflexivity. Qed.

Example classify_under_relative_public_path :
  JS.replaceLeadingDots "./" = "/" ∧
  JS.replaceLeadingDots "../../static/" = "/static/" ∧
  JS.replaceLeadingDots "/app/" = "/app/".
Proof. repeat split; reflexivity. Qed.

(** ** The response policy *)

Lemma matchHead_app (r1 r2 : list JS.Atom) (s : string) :
  JS.matchHead (r1 ++ r2)%list s = JS.matchHead r1 s ≫= JS.matchHead r2.
Proof.
  revert s. induction r1 as [|a r1 IH]; intros s; simpl; [reflexivity|].
  destruct s as [|c s]; [reflexivity|].
  destruct (JS.atomMatches a c); [apply IH | reflexivity].
Qed.

(** An unanchored pattern matches when it matches at the head of some
    suffix. *)
Lemma test_somewhere (re : list JS.Atom) (s : string) :
  JS.test re s = true ↔
  ∃ before at_ rest, s = before +:+ at_ ∧ JS.matchHead re at_ = Some rest.
Proof.
  induction s as [|d s IH]; simpl.
  - destruct (JS.matchHead re "") as [r|] eqn:E.
    + split; [intros _|auto]. exists "", "", r. auto.
    + split; [discriminate|]. intros (a & m & r & Hs & Hm).
      destruct a; [|discriminate]. rewrite append_nil in Hs. subst m.
      congruence.
  - destruct (JS.matchHead re (String d s)) as [r|] eqn:E.
    + split; [intros _|auto]. exists "", (String d s), r. auto.
    + rewrite IH. split.
      * intros (a & m & r & Hs & Hm). exists (String d a), m, r.
        rewrite append_cons. split; congruence.
      * intros (a & m & r & Hs & Hm). destruct a as [|c a].
        -- rewrite append_nil in Hs. subst m. congruence.
        -- rewrite append_cons in Hs. injection Hs as _ Hs.
           exists a, m, r. auto.
Qed.

(** What [/remoteEntry.js/] accepts: [remoteEntry], any one character
    that is not a line terminator, then [js], anywhere in the string. *)
Lemma remoteEntry_pattern (s : string) :
  JS.test re_remoteEntry s = true ↔
  ∃ before c after,
    JS.lineTerminator c = false ∧
    s = before +:+ "remoteEntry" +:+ String c ("js" +:+ after).
Proof.
  rewrite test_somewhere. unfold re_remoteEntry. split.
  - intros (a & m & r & Hs & Hm). rewrite matchHead_app in Hm.
    destruct (JS.matchHead (JS.lits "remoteEntry") m) as [m1|] eqn:E1;
      [|discriminate].
    apply matchHead_lits in E1. simpl in Hm.
    destruct m1 as [|c m1]; [discriminate|].
    destruct (JS.lineTerminator c) eqn:Ec; [discriminate|]. simpl in Hm.
    change (JS.matchHead (JS.lits "js") m1 = Some r) in Hm.
    apply matchHead_lits in Hm. exists a, c, r. split; [exact Ec|].
    congruence.
  - intros (a & c & b & Hc & Hs).
    exists a, ("remoteEntry" +:+ String c ("js" +:+ b)), b.
    split; [exact Hs|]. rewrite matchHead_app.
    rewrite (proj2 (matchHead_lits "remoteEntry" _ _) eq_refl). simpl.
    rewrite Hc. reflexivity.
Qed.

Section ResponsePolicy.
Context `{Host}.

Lemma serveAsset_found (api : Api) (req : Request) (res : Response)
    (rel : string) (fs : Files) (content : string) :
  fs !! assetFile api rel = Some content →
  serveAsset api req res rel fs
  = {| fileRead := assetFile api rel;
       reply := Returns (servedResponse req res content) |}.
Proof. intros Hfile. unfold serveAsset. simpl. by rewrite Hfile. Qed.

Lemma fire_found (api : Api) (req : Request) (res : Response)
    (rel : string) (fs : Files) (content : string) :
  fs !! assetFile api rel = Some content →
  fire fs {| waitingRequest := req;
             waitingFn := serveAsset api req res rel |}
  = [FileRead req (assetFile api rel);
     Replied req (servedResponse req res content)].
Proof.
  intros Hfile. unfold fire.
  cbn [waitingFn waitingRequest].
  by rewrite (serveAsset_found _ _ _ _ _ _ Hfile).
Qed.

(** C7. A served managed asset gets the content type that [mime] gives
    for the extension of the request path, and the file's text as body.
    When the request URL matches the remote-entry pattern the gateway sets
    no [cache-control] header; otherwise the response carries
    [cache-control: max-age=31536000,immutable].  No other header is
    touched. *)
Theorem serveAsset_headers (api : Api) (req : Request) (res : Response)
    (rel : string) (fs : Files) (content : string) :
  fs !! assetFile api rel = Some content →
  ∃ res',
    reply (serveAsset api req res rel fs) = Returns res' ∧
    body res' = Some content ∧
    headers res' !! "content-type"
      = Some (mime_lookup (path_parse_ext (path req))) ∧
    (JS.test re_remoteEntry (url req) = true →
       headers res' !! "cache-control" = headers res !! "cache-control") ∧
    (JS.test re_remoteEntry (url req) = false →
       headers res' !! "cache-control" = Some "max-age=31536000,immutable") ∧
    (∀ name, name ≠ "content-type" → name ≠ "cache-control" →
       headers res' !! name = headers res !! name).
Proof.
  intros Hfile. rewrite (serveAsset_found _ _ _ _ _ _ Hfile).
  eexists. split; [reflexivity|]. unfold servedResponse.
  destruct (JS.test re_remoteEntry (url req)); simpl.
  - split; [reflexivity|]. split; [apply lookup_insert_eq|].
    split; [intros _; by rewrite lookup_insert_ne|].
    split; [discriminate|].
    intros name Hct _. by rewrite lookup_insert_ne.
  - split; [reflexivity|].
    split; [by rewrite lookup_insert_ne, lookup_insert_eq|].
    split; [discriminate|].
    split; [intros _; apply lookup_insert_eq|].
    intros name Hct Hcc. by rewrite !lookup_insert_ne.
Qed.

End ResponsePolicy.

Lemma serveAsset_headers_witness :
  exampleFiles !! @assetFile exampleHost exampleApi "mf-dep_vendors.3f2a.js"
    = Some "vendors();" ∧
  ∃ res',
    reply (@serveAsset exampleHost exampleApi exampleChunkReq exampleRes
             "mf-dep_vendors.3f2a.js" exampleFiles) = Returns res' ∧
    body res' = Some "vendors();" ∧
    headers res' !! "content-type" = Some "application/javascript" ∧
    (JS.test re_remoteEntry (url exampleChunkReq) = true →
       headers res' !! "cache-control"
         = headers exampleRes !! "cache-control") ∧
    (JS.test re_remoteEntry (url exampleChunkReq) = false →
       headers res' !! "cache-control"
         = Some "max-age=31536000,immutable") ∧
    (∀ name, name ≠ "content-type" → name ≠ "cache-control" →
       headers res' !! name = headers exampleRes !! name).
Proof.
  split; [vm_compute; reflexivity|].
  apply (@serveAsset_headers exampleHost exampleApi exampleChunkReq
           exampleRes "mf-dep_vendors.3f2a.js" exampleFiles "vendors();").
  vm_compute. reflexivity.
Defined.

Example remoteEntry_wildcard :
  JS.test re_remoteEntry "/mf-va_remoteEntry.js" = true ∧
  JS.test re_remoteEntry "/mf-va_remoteEntry-js" = true ∧
  JS.test re_remoteEntry "/mf-dep_vendors.3f2a.js" = false.
Proof. repeat split; reflexivity. Qed.

(** ** The completion callback *)

Lemma callback_failed (err : option Error) (stats : option Stats)
    (p : Plugin) :
  failed err stats = true →
  buildDeps_onBuildComplete err stats p
  = {| outcome := Returns tt; final := p; events := [] |}.
Proof.
  destruct err as [e|], stats as [[[|]]|]; simpl; intros Hf;
    try discriminate; reflexivity.
Qed.

Lemma callback_succeeded (err : option Error) (stats : option Stats)
    (p : Plugin) :
  succeeded err stats = true →
  buildDeps_onBuildComplete err stats p
  = {| outcome := Returns tt;
       final := setDepInfo (writeCache (depInfo p)) p;
       events := WriteCache (pending (depInfo p))
                 :: (if String.eqb (mode p) "development"
                     then [SockWrite reloadMessage] else []) |}.
Proof.
  destruct err as [e|], stats as [[[|]]|]; simpl; intros Hf;
    try discriminate.
  unfold bind, gets, emit, modify, depInfo_writeCache; simpl.
  destruct (String.eqb (mode p) "development"); reflexivity.
Qed.

Lemma callback_undefined_stats (p : Plugin) :
  ∃ e, buildDeps_onBuildComplete None None p
       = {| outcome := Throws e; final := p; events := [] |}.
Proof. eexists. reflexivity. Qed.

(** The three ways a completion can go. *)
Lemma completion_cases (err : option Error) (stats : option Stats) :
  failed err stats = true ∨ succeeded err stats = true ∨
  (err = None ∧ stats = None).
Proof.
  destruct err, stats as [[[|]]|]; simpl; auto.
Qed.

(** What the callback never changes, and what it can emit. *)
Lemma callback_frame (err : option Error) (stats : option Stats)
    (p : Plugin) :
  let r := buildDeps_onBuildComplete err stats p in
  mode (final r) = mode p ∧
  depBuilder_tmpDir (final r) = depBuilder_tmpDir p ∧
  pending (depInfo (final r)) = pending (depInfo p) ∧
  (∀ e, e ∈ events r → isWriteCache e ∨ e = SockWrite reloadMessage).
Proof.
  destruct (completion_cases err stats) as [Hf|[Hs|[-> ->]]].
  - rewrite (callback_failed _ _ _ Hf). simpl.
    repeat split; auto. intros e He. by apply elem_of_nil in He.
  - rewrite (callback_succeeded _ _ _ Hs). simpl.
    repeat split; auto. intros e He.
    apply elem_of_cons in He as [->|He]; [left; by eexists|].
    destruct (String.eqb (mode p) "development").
    + apply list_elem_of_singleton in He. auto.
    + by apply elem_of_nil in He.
  - simpl. repeat split; auto. intros e He. by apply elem_of_nil in He.
Qed.

Lemma runCompletions_frame (cs : list (option Error * option Stats))
    (p : Plugin) :
  let r := runCompletions buildDeps_onBuildComplete cs p in
  mode (final r) = mode p ∧
  depBuilder_tmpDir (final r) = depBuilder_tmpDir p ∧
  pending (depInfo (final r)) = pending (depInfo p) ∧
  (∀ e, e ∈ events r → isWriteCache e ∨ e = SockWrite reloadMessage).
Proof.
  revert p. induction cs as [|[err stats] cs IH]; intros p; simpl.
  - repeat split; auto. intros e He. by apply elem_of_nil in He.
  - unfold bind.
    destruct (callback_frame err stats p) as (Hm & Ht & Hp & He).
    destruct (outcome (buildDeps_onBuildComplete err stats p)); simpl.
    + destruct (IH (final (buildDeps_onBuildComplete err stats p)))
        as (Hm' & Ht' & Hp' & He').
      repeat split; try congruence.
      intros e Hin. apply elem_of_app in Hin as [Hin|Hin]; auto.
    + repeat split; auto.
Qed.

(** ** The shape of a reconcile run *)

Section ReconcileFacts.
Context `{Host}.

Lemma buildDeps_skips (api : Api) (b : BuildRun) (force : option bool)
    (p : Plugin) :
  buildNeeded force p = false →
  buildDeps api b force p
  = {| outcome := Returns tt; final := p; events := copyEvents api p |}.
Proof.
  unfold buildNeeded, buildDeps, copyEvents, bind, gets, emit, ret; simpl.
  intros ->. simpl. destruct (String.eqb (mode p) "production"); reflexivity.
Qed.

Lemma buildDeps_builds (api : Api) (b : BuildRun) (force : option bool)
    (p : Plugin) :
  buildNeeded force p = true →
  let rc := runCompletions buildDeps_onBuildComplete (completions b) p in
  buildDeps api b force p
  = match outcome rc, settles b with
    | Returns _, Resolves =>
        {| outcome := Returns tt; final := final rc;
           events := (Build (pending (depInfo p)) :: events rc
                      ++ copyEvents api (final rc))%list |}
    | Returns _, Rejects e =>
        {| outcome := Throws e; final := final rc;
           events := Build (pending (depInfo p)) :: events rc |}
    | Throws e, _ =>
        {| outcome := Throws e; final := final rc;
           events := Build (pending (depInfo p)) :: events rc |}
    end.
Proof.
  unfold buildNeeded, buildDeps, depBuilder_build, copyEvents.
  unfold bind, gets, emit, ret, throw; simpl. intros ->. simpl.
  destruct (runCompletions buildDeps_onBuildComplete (completions b) p)
    as [[[]|e] p' evs]; simpl; [|reflexivity].
  destruct (settles b) as [|e]; simpl.
  - destruct (String.eqb (mode p') "production"); simpl;
      rewrite ?app_nil_r; reflexivity.
  - rewrite app_nil_r. reflexivity.
Qed.

(** The events of a reconcile run: an optional build with the effects of
    its completions, then an optional copy. *)
Lemma buildDeps_events (api : Api) (b : BuildRun) (force : option bool)
    (p : Plugin) :
  ∃ evs tail,
    events (buildDeps api b force p)
    = ((if buildNeeded force p then Build (pending (depInfo p)) :: evs
        else []) ++ tail)%list ∧
    (∀ e, e ∈ evs → isWriteCache e ∨ e = SockWrite reloadMessage) ∧
    (tail = [] ∨
     tail = [Copy (depBuilder_tmpDir p) (publishDir api)]
     ∧ mode p = "production"
     ∧ outcome (buildDeps api b force p) = Returns tt).
Proof.
  destruct (buildNeeded force p) eqn:Hn.
  - rewrite (buildDeps_builds _ _ _ _ Hn).
    destruct (runCompletions_frame (completions b) p)
      as (Hm & Ht & _ & He).
    set (rc := runCompletions buildDeps_onBuildComplete (completions b) p)
      in *.
    destruct (outcome rc) as [[]|e].
    + destruct (settles b) as [|e]; simpl.
      * exists (events rc), (copyEvents api (final rc)).
        repeat split; auto. unfold copyEvents. rewrite Hm, Ht.
        destruct (String.eqb (mode p) "production") eqn:E; auto.
        apply String.eqb_eq in E. right. auto.
      * exists (events rc), []. rewrite app_nil_r. auto.
    + simpl. exists (events rc), []. rewrite app_nil_r. auto.
  - rewrite (buildDeps_skips _ _ _ _ Hn). simpl.
    exists [], (copyEvents api p). repeat split.
    + intros e He. by apply elem_of_nil in He.
    + unfold copyEvents.
      destruct (String.eqb (mode p) "production") eqn:E; auto.
      apply String.eqb_eq in E. right. auto.
Qed.

End ReconcileFacts.

(** ** When the bundler runs *)

Lemma truthyFlag_true (force : option bool) :
  truthyFlag force = true ↔ force = Some true.
Proof. destruct force as [[|]|]; simpl; split; congruence. Qed.

Lemma buildNeeded_true (force : option bool) (p : Plugin) :
  buildNeeded force p = true ↔
  force = Some true ∨ loadTmpDeps (depInfo p) = true.
Proof.
  unfold buildNeeded. rewrite orb_true_iff, truthyFlag_true. reflexivity.
Qed.

Section Reconciliation.
Context `{Host}.

(** C2. [buildDeps] invokes the builder if and only if [force] is true
    or the snapshot store reports [shouldBuild].  With [force] not true and
    [shouldBuild] false it returns without invoking the bundler and leaves
    the plugin state as it was; with [force] true the build is the first
    thing it does, whatever the store reports, so also when the pending set
    equals the persisted set. *)
Theorem buildDeps_invokes_build_iff (api : Api) (b : BuildRun)
    (force : option bool) (p : Plugin) :
  ((∃ deps, Build deps ∈ events (buildDeps api b force p)) ↔
     force = Some true ∨ loadTmpDeps (depInfo p) = true) ∧
  (force ≠ Some true → loadTmpDeps (depInfo p) = false →
     buildDeps api b force p
     = {| outcome := Returns tt; final := p;
          events := copyEvents api p |} ∧
     ∀ e, e ∈ events (buildDeps api b force p) → ¬ isBuild e) ∧
  (force = Some true →
     ∃ evs, events (buildDeps api b force p)
            = Build (pending (depInfo p)) :: evs).
Proof.
  rewrite <- buildNeeded_true. split; [|split].
  - destruct (buildNeeded force p) eqn:Hn.
    + split; [auto|intros _].
      destruct (buildDeps_events api b force p) as (evs & tl & -> & _).
      rewrite Hn. eexists. apply elem_of_app. left. apply elem_of_cons.
      left. reflexivity.
    + split; [|discriminate]. rewrite (buildDeps_skips _ _ _ _ Hn). simpl.
      intros (deps & Hin). unfold copyEvents in Hin.
      destruct (String.eqb (mode p) "production").
      * apply list_elem_of_singleton in Hin. discriminate.
      * by apply elem_of_nil in Hin.
  - intros Hf Hs.
    assert (Hn : buildNeeded force p = false).
    { destruct (buildNeeded force p) eqn:Hn; [|reflexivity].
      apply buildNeeded_true in Hn as [Hn|Hn]; congruence. }
    rewrite (buildDeps_skips _ _ _ _ Hn). simpl. split; [reflexivity|].
    intros e Hin (d & ->). unfold copyEvents in Hin.
    destruct (String.eqb (mode p) "production").
    + apply list_elem_of_singleton in Hin. discriminate.
    + by apply elem_of_nil in Hin.
  - intros Hf.
    assert (Hn : buildNeeded force p = true)
      by (apply buildNeeded_true; auto).
    destruct (buildDeps_events api b force p) as (evs & tl & -> & _).
    rewrite Hn. eexists. reflexivity.
Qed.

(** ** A failed build leaves the cache alone *)

Lemma runCompletions_all_failed (cs : list (option Error * option Stats))
    (p : Plugin) :
  Forall (λ c, failed c.1 c.2 = true) cs →
  runCompletions buildDeps_onBuildComplete cs p
  = {| outcome := Returns tt; final := p; events := [] |}.
Proof.
  induction 1 as [|[err stats] cs Hc _ IH]; simpl; [reflexivity|].
  unfold bind. simpl in Hc. rewrite (callback_failed _ _ _ Hc). simpl.
  rewrite IH. reflexivity.
Qed.

(** C3. A build completion whose error argument is set, or whose stats
    report errors, does not write the cache: the callback returns at once,
    with no effect and the plugin state (so the persisted snapshot) as it
    was.  A reconcile run in which the build only completes that way
    leaves the snapshot store as it was and never writes the cache, so the
    store evaluates the same pending set as before. *)
Theorem failed_build_keeps_cache (api : Api) (b : BuildRun)
    (force : option bool) (p : Plugin) :
  (∀ err stats, failed err stats = true →
     buildDeps_onBuildComplete err stats p
     = {| outcome := Returns tt; final := p; events := [] |}) ∧
  (Forall (λ c, failed c.1 c.2 = true) (completions b) →
     depInfo (final (buildDeps api b force p)) = depInfo p ∧
     (∀ e, e ∈ events (buildDeps api b force p) → ¬ isWriteCache e) ∧
     loadTmpDeps (depInfo (final (buildDeps api b force p)))
       = loadTmpDeps (depInfo p)).
Proof.
  split; [intros err stats; apply callback_failed|].
  intros Hall.
  assert (Hfinal : final (buildDeps api b force p) = p ∧
                   ∀ e, e ∈ events (buildDeps api b force p) →
                        ¬ isWriteCache e).
  { destruct (buildNeeded force p) eqn:Hn.
    - rewrite (buildDeps_builds _ _ _ _ Hn).
      rewrite (runCompletions_all_failed _ _ Hall). simpl.
      destruct (settles b); simpl.
      + split; [reflexivity|]. intros e Hin (d & ->).
        apply elem_of_cons in Hin as [Hin|Hin]; [discriminate|].
        unfold copyEvents in Hin.
        destruct (String.eqb (mode p) "production").
        * apply list_elem_of_singleton in Hin. discriminate.
        * by apply elem_of_nil in Hin.
      + split; [reflexivity|]. intros e' Hin (d & ->).
        apply list_elem_of_singleton in Hin. discriminate.
    - rewrite (buildDeps_skips _ _ _ _ Hn). simpl.
      split; [reflexivity|]. intros e Hin (d & ->).
      unfold copyEvents in Hin.
      destruct (String.eqb (mode p) "production").
      + apply list_elem_of_singleton in Hin. discriminate.
      + by apply elem_of_nil in Hin. }
  destruct Hfinal as [-> Hev]. auto.
Qed.

End Reconciliation.

(** ** The cache write comes before the reload notification *)

Lemma reloadFollowsWrite_nil : reloadFollowsWrite [].
Proof. intros l1 m l2 Heq. by destruct l1. Qed.

Lemma reloadFollowsWrite_app (a b : list Event) :
  reloadFollowsWrite a → reloadFollowsWrite b →
  reloadFollowsWrite (a ++ b).
Proof.
  intros Ha Hb l1 m l2 Heq.
  apply app_eq_app in Heq as (l & [[Hl1 Hl2]|[Hl1 Hl2]]).
  - destruct l as [|x l].
    + simpl in Hl2. destruct (Hb [] m l2) as (_ & l0 & d & Hnil);
        [by rewrite <- Hl2|]. by destruct l0.
    + simpl in Hl2. injection Hl2 as <- Hl2. apply (Ha l1 m l).
      exact Hl1.
  - destruct (Hb l m l2 Hl2) as (Hm & l0 & d & ->).
    split; [exact Hm|]. exists (a ++ l0)%list, d.
    rewrite Hl1. by rewrite app_assoc.
Qed.

Lemma reloadFollowsWrite_quiet (evs : list Event) :
  (∀ e, e ∈ evs → ¬ isSockWrite e) → reloadFollowsWrite evs.
Proof.
  intros Hq l1 m l2 ->. exfalso. apply (Hq (SockWrite m)).
  - apply elem_of_app. right. apply elem_of_cons. by left.
  - by eexists.
Qed.

Lemma callback_reloadFollowsWrite (err : option Error)
    (stats : option Stats) (p : Plugin) :
  reloadFollowsWrite (events (buildDeps_onBuildComplete err stats p)).
Proof.
  destruct (completion_cases err stats) as [Hf|[Hs|[-> ->]]].
  - rewrite (callback_failed _ _ _ Hf). apply reloadFollowsWrite_nil.
  - rewrite (callback_succeeded _ _ _ Hs). simpl.
    destruct (String.eqb (mode p) "development").
    + intros l1 m l2 Heq.
      destruct l1 as [|x [|y l1]]; simpl in Heq.
      * discriminate.
      * injection Heq as <- <- _. split; [reflexivity|].
        by exists [], (pending (depInfo p)).
      * injection Heq as _ _ Heq. by destruct l1.
    + apply reloadFollowsWrite_quiet. intros e He (m & ->).
      apply list_elem_of_singleton in He. discriminate.
  - apply reloadFollowsWrite_nil.
Qed.

Lemma runCompletions_reloadFollowsWrite
    (cs : list (option Error * option Stats)) (p : Plugin) :
  reloadFollowsWrite
    (events (runCompletions buildDeps_onBuildComplete cs p)).
Proof.
  revert p. induction cs as [|[err stats] cs IH]; intros p; simpl.
  - apply reloadFollowsWrite_nil.
  - unfold bind.
    pose proof (callback_reloadFollowsWrite err stats p) as Hc.
    destruct (outcome (buildDeps_onBuildComplete err stats p)); simpl.
    + apply reloadFollowsWrite_app; [exact Hc | apply IH].
    + exact Hc.
Qed.

Lemma runCompletions_no_reload (cs : list (option Error * option Stats))
    (p : Plugin) :
  mode p ≠ "development" →
  ∀ e, e ∈ events (runCompletions buildDeps_onBuildComplete cs p) →
       ¬ isSockWrite e.
Proof.
  revert p. induction cs as [|[err stats] cs IH]; intros p Hm; simpl.
  - intros e He. by apply elem_of_nil in He.
  - unfold bind.
    assert (Hc : ∀ e, e ∈ events (buildDeps_onBuildComplete err stats p) →
                      ¬ isSockWrite e).
    { destruct (completion_cases err stats) as [Hf|[Hs|[-> ->]]].
      - rewrite (callback_failed _ _ _ Hf). intros e He.
        by apply elem_of_nil in He.
      - rewrite (callback_succeeded _ _ _ Hs). simpl.
        destruct (String.eqb (mode p) "development") eqn:E;
          [apply String.eqb_eq in E; contradiction|].
        intros e He (m & ->). apply list_elem_of_singleton in He.
        discriminate.
      - intros e He. by apply elem_of_nil in He. }
    destruct (callback_frame err stats p) as (Hmode & _).
    destruct (outcome (buildDeps_onBuildComplete err stats p)); simpl.
    + intros e He. apply elem_of_app in He as [He|He]; [by apply Hc|].
      revert e He. apply IH. simpl in Hmode. congruence.
    + exact Hc.
Qed.

Section Notification.
Context `{Host}.

Lemma copyEvents_quiet (api : Api) (p : Plugin) (e : Event) :
  e ∈ copyEvents api p → isCopy e.
Proof.
  unfold copyEvents. destruct (String.eqb (mode p) "production").
  - intros ->%list_elem_of_singleton. by eexists _, _.
  - intros He. by apply elem_of_nil in He.
Qed.

(** C4. On a successful completion in development mode the callback
    writes the cache and then sends the reload message, which is exactly
    [{type: "ok", data: {reload: true}}]; in a whole reconcile run every
    socket message is that message and comes directly after a cache write.
    In production mode (in any mode other than development) a reconcile
    run sends no socket message. *)
Theorem reload_after_writeCache (api : Api) (b : BuildRun)
    (force : option bool) (p : Plugin) :
  (∀ err stats, mode p = "development" → succeeded err stats = true →
     events (buildDeps_onBuildComplete err stats p)
     = [WriteCache (pending (depInfo p));
        SockWrite (JS.Obj [("type", JS.Str "ok");
                           ("data", JS.Obj [("reload", JS.Bool true)])])]) ∧
  reloadFollowsWrite (events (buildDeps api b force p)) ∧
  (mode p ≠ "development" →
     ∀ e, e ∈ events (buildDeps api b force p) → ¬ isSockWrite e).
Proof.
  split; [|split].
  - intros err stats Hm Hs. rewrite (callback_succeeded _ _ _ Hs). simpl.
    rewrite Hm. reflexivity.
  - assert (Hcopy : ∀ q, reloadFollowsWrite (copyEvents api q)).
    { intros q. apply reloadFollowsWrite_quiet. intros e He (m & ->).
      apply copyEvents_quiet in He as (s & d & He). discriminate. }
    assert (Hbuild : ∀ d evs, reloadFollowsWrite evs →
                              reloadFollowsWrite (Build d :: evs)).
    { intros d evs Hevs.
      apply (reloadFollowsWrite_app [Build d] evs); [|exact Hevs].
      apply reloadFollowsWrite_quiet. intros e He (m & ->).
      apply list_elem_of_singleton in He. discriminate. }
    pose proof (runCompletions_reloadFollowsWrite (completions b) p) as Hrc.
    destruct (buildNeeded force p) eqn:Hn.
    + rewrite (buildDeps_builds _ _ _ _ Hn).
      destruct (outcome (runCompletions _ _ p)) as [[]|e];
        [destruct (settles b)|]; simpl; apply Hbuild; auto.
      apply reloadFollowsWrite_app; auto.
    + rewrite (buildDeps_skips _ _ _ _ Hn). simpl. apply Hcopy.
  - intros Hm e He (m & ->).
    pose proof (runCompletions_no_reload (completions b) p Hm) as Hq.
    assert (Hcopy : ∀ q, SockWrite m ∉ copyEvents api q).
    { intros q Hin. apply copyEvents_quiet in Hin as (s & d & Hin).
      discriminate. }
    destruct (buildNeeded force p) eqn:Hn.
    + rewrite (buildDeps_builds _ _ _ _ Hn) in He.
      destruct (outcome (runCompletions _ _ p)) as [[]|e'];
        [destruct (settles b)|]; simpl in He;
        apply elem_of_cons in He as [He|He]; try discriminate;
        try (apply (Hq _ He); by eexists).
      apply elem_of_app in He as [He|He];
        [apply (Hq _ He); by eexists | by apply Hcopy in He].
    + rewrite (buildDeps_skips _ _ _ _ Hn) in He. by apply Hcopy in He.
Qed.

End Notification.

(** ** The copy to the publish directory *)

Lemma runCompletions_all_succeeded
    (cs : list (option Error * option Stats)) (p : Plugin) :
  Forall (λ c, succeeded c.1 c.2 = true) cs →
  outcome (runCompletions buildDeps_onBuildComplete cs p) = Returns tt.
Proof.
  intros Hall. revert p.
  induction Hall as [|[err stats] cs Hc _ IH]; intros p; simpl;
    [reflexivity|].
  unfold bind. simpl in Hc. rewrite (callback_succeeded _ _ _ Hc). simpl.
  apply IH.
Qed.

Section Publish.
Context `{Host}.

(** Where the copy stands in a run.  In production mode [buildDeps]
    copies the builder's working directory to the publish directory as its
    last step: when no build was needed the directory is copied as it
    stands; after a build whose completions all report success and whose
    promise resolves, the copy follows the cache writes.  When the call of
    the builder rejects, [buildDeps] throws and copies nothing.  Outside
    production mode nothing is ever copied. *)
Lemma production_copy (api : Api) (b : BuildRun) (force : option bool)
    (p : Plugin) :
  (mode p = "production" → buildNeeded force p = false →
     buildDeps api b force p
     = {| outcome := Returns tt; final := p;
          events := [Copy (depBuilder_tmpDir p) (publishDir api)] |}) ∧
  (mode p = "production" → buildNeeded force p = true →
     Forall (λ c, succeeded c.1 c.2 = true) (completions b) →
     settles b = Resolves →
     ∃ writes,
       events (buildDeps api b force p)
       = (Build (pending (depInfo p)) :: writes
          ++ [Copy (depBuilder_tmpDir p) (publishDir api)])%list ∧
       ∀ e, e ∈ writes → isWriteCache e) ∧
  (buildNeeded force p = true → (∃ e, settles b = Rejects e) →
     (∃ e, outcome (buildDeps api b force p) = Throws e) ∧
     ∀ e, e ∈ events (buildDeps api b force p) → ¬ isCopy e) ∧
  (mode p ≠ "production" →
     ∀ e, e ∈ events (buildDeps api b force p) → ¬ isCopy e).
Proof.
  split; [|split; [|split]].
  - intros Hm Hn. rewrite (buildDeps_skips _ _ _ _ Hn).
    unfold copyEvents. rewrite Hm. reflexivity.
  - intros Hm Hn Hall Hres. rewrite (buildDeps_builds _ _ _ _ Hn).
    rewrite (runCompletions_all_succeeded _ p Hall), Hres.
    destruct (runCompletions_frame (completions b) p)
      as (Hmode & Htmp & _ & Hev).
    simpl in *. exists (events (runCompletions buildDeps_onBuildComplete
                                  (completions b) p)).
    split.
    + unfold copyEvents. rewrite Hmode, Htmp, Hm. reflexivity.
    + intros e He. destruct (Hev e He) as [Hw | ->]; [exact Hw|].
      exfalso.
      apply (runCompletions_no_reload (completions b) p) in He.
      * apply He. by eexists.
      * rewrite Hm. discriminate.
  - intros Hn (e & Hrej). rewrite (buildDeps_builds _ _ _ _ Hn), Hrej.
    destruct (runCompletions_frame (completions b) p) as (_ & _ & _ & Hev).
    simpl in Hev.
    destruct (outcome (runCompletions _ _ p)) as [[]|e']; simpl;
      (split; [by eexists|]); intros x Hx (s & d & ->);
      apply elem_of_cons in Hx as [Hx|Hx]; try discriminate;
      destruct (Hev _ Hx) as [(d' & Hw)|Hs]; discriminate.
  - intros Hm e He (s & d & ->).
    destruct (buildDeps_events api b force p) as (evs & tl & Hev & Hevs & Htl).
    rewrite Hev in He. apply elem_of_app in He as [He|He].
    + destruct (buildNeeded force p); [|by apply elem_of_nil in He].
      apply elem_of_cons in He as [He|He]; [discriminate|].
      destruct (Hevs _ He) as [(d' & Hw)|Hs]; discriminate.
    + destruct Htl as [->|(_ & Hprod & _)]; [|contradiction].
      by apply elem_of_nil in He.
Qed.


End Publish.

(** *** A first production build of an application without dependencies *)

Lemma onStart_fresh_production :
  @onStart exampleHost exampleApi emptyDisk "build" noArgs
  = (Returns freshProduction,
     [Mkdirp "/proj/.mfsu-production";
      LoadCache "/proj/.mfsu-production"]).
Proof. vm_compute. reflexivity. Qed.

(** In production mode the working directory is also copied when the run
    needed no build. *)
Example production_copy_without_build :
  mode freshProduction = "production" ∧
  loadTmpDeps (depInfo freshProduction) = false ∧
  @api_onBuildComplete exampleHost exampleApi okBuild None freshProduction
  = {| outcome := Returns tt; final := freshProduction;
       events := [Copy "/proj/.mfsu-production" "/proj/dist"] |}.
Proof. repeat split; vm_compute; reflexivity. Qed.


(** ** The command and the mode check *)

Lemma selectMode_cases (name : string) (args : Args) :
  selectMode name args
  = if String.eqb name "build" then JS.Str "production"
    else if modeTaken name args then arg_mode args
    else JS.Str "development".
Proof.
  unfold selectMode, modeTaken.
  destruct (String.eqb name "build"); [reflexivity|].
  destruct (String.eqb name "mfsu"); [|reflexivity].
  destruct (JS.strictEqStr _ "build"); [|reflexivity].
  simpl. destruct (JS.truthy (arg_mode args)); reflexivity.
Qed.

Lemma modeTaken_not_build (name : string) (args : Args) :
  modeTaken name args = true → String.eqb name "build" = false.
Proof.
  unfold modeTaken. destruct (String.eqb name "mfsu") eqn:E; [|discriminate].
  apply String.eqb_eq in E. subst name. reflexivity.
Qed.

Section Command.
Context `{Host}.

(** The command runs the dependency build exactly when its first
    positional argument is [build], and throws for every other one. *)
Lemma mfsuCommand_dispatch (api : Api) (b : BuildRun) (args : Args)
    (p : Plugin) :
  (JS.strictEqStr (JS.index (positional args) 0) "build" = true →
     mfsuCommand api b args p
     = (emit (ConsoleLog "[MFSU] build deps...") ;;
        buildDeps api b (arg_force args)) p) ∧
  (JS.strictEqStr (JS.index (positional args) 0) "build" = false →
     ∃ msg, mfsuCommand api b args p
            = {| outcome := Throws (PlainError msg); final := p;
                 events := [] |}).
Proof.
  split; intros Hb; unfold mfsuCommand; rewrite Hb; [reflexivity|].
  eexists. reflexivity.
Qed.

(** When [onStart] takes the mode from the arguments, a mode that is
    neither [development] nor [production] stops the start-up with the
    assertion error before any effect; for a mode given as a string the
    message names it. *)
Lemma onStart_checks_taken_mode (api : Api) (disk : Disk) (name : string)
    (args : Args) :
  checkConfig api = Returns tt →
  modeTaken name args = true →
  supportedMode (arg_mode args) = None →
  ∃ msg,
    onStart api disk name args = (Throws (AssertionError msg), []) ∧
    ∀ s, arg_mode args = JS.Str s →
         msg = "[MFSU] Unsupported mode " +:+ s
               +:+ ", expect development or production.".
Proof.
  intros Hcfg Ht Hs. unfold onStart.
  rewrite Hcfg, selectMode_cases, (modeTaken_not_build _ _ Ht), Ht, Hs.
  eexists. split; [reflexivity|].
  intros s ->. reflexivity.
Qed.

Lemma selectMode_mfsu_untaken (args : Args) :
  JS.strictEqStr (JS.index (positional args) 1) "build" = false →
  selectMode "mfsu" args = JS.Str "development".
Proof.
  intros Hb. rewrite selectMode_cases. unfold modeTaken. rewrite Hb.
  reflexivity.
Qed.

(** C9.  The specification asks that start-up fail for every mode value
    other than [development] and [production].  For the arguments on which
    the command builds ([args._[0]] is [build]) and whose second positional
    argument is not [build], [onStart] never looks at [args.mode]: it
    behaves as it does for the mode [development], so that start-up can
    fail only in [checkConfig], a plugin that starts is in development
    mode, and the command then runs the build.  The guard of [onStart]
    reads [args._[1]] where the command reads [args._[0]]. *)
Theorem mfsu_build_mode_unchecked (api : Api) (disk : Disk) (b : BuildRun)
    (args : Args) (p : Plugin) :
  JS.strictEqStr (JS.index (positional args) 0) "build" = true →
  JS.strictEqStr (JS.index (positional args) 1) "build" = false →
  onStart api disk "mfsu" args
  = onStart api disk "mfsu"
      {| positional := positional args; arg_mode := JS.Str "development";
         arg_force := arg_force args |} ∧
  (∀ q evs, onStart api disk "mfsu" args = (Returns q, evs) →
            mode q = "development") ∧
  (∀ e evs, onStart api disk "mfsu" args = (Throws e, evs) →
            checkConfig api = Throws e) ∧
  mfsuCommand api b args p
  = (emit (ConsoleLog "[MFSU] build deps...") ;;
     buildDeps api b (arg_force args)) p.
Proof.
  intros H0 H1. split; [|split; [|split]].
  - unfold onStart.
    rewrite (selectMode_mfsu_untaken args H1).
    by rewrite (selectMode_mfsu_untaken
                  {| positional := positional args;
                     arg_mode := JS.Str "development";
                     arg_force := arg_force args |} H1).
  - intros q evs. unfold onStart.
    rewrite (selectMode_mfsu_untaken args H1).
    destruct (checkConfig api); [|discriminate].
    simpl. by intros [= <- _].
  - intros e evs. unfold onStart.
    rewrite (selectMode_mfsu_untaken args H1).
    destruct (checkConfig api); [discriminate|].
    by intros [= <- _].
  - exact (proj1 (mfsuCommand_dispatch api b args p) H0).
Qed.

End Command.

(** [umi mfsu build --mode staging --force]: start-up does not fail, the
    plugin runs in development mode, and the command builds. *)
Lemma mfsu_build_mode_unchecked_witness :
  JS.strictEqStr (JS.index (positional stagingArgs) 0) "build" = true ∧
  JS.strictEqStr (JS.index (positional stagingArgs) 1) "build" = false ∧
  supportedMode (arg_mode stagingArgs) = None ∧
  @onStart exampleHost exampleApi emptyDisk "mfsu" stagingArgs
  = (Returns freshDevelopment,
     [Mkdirp "/proj/src/.umi/.cache/.mfsu";
      LoadCache "/proj/src/.umi/.cache/.mfsu"]) ∧
  mode freshDevelopment = "development" ∧
  @mfsuCommand exampleHost exampleApi okBuild stagingArgs freshDevelopment
  = {| outcome := Returns tt; final := freshDevelopment;
       events := [ConsoleLog "[MFSU] build deps..."; Build ∅;
                  WriteCache ∅; SockWrite reloadMessage] |}.
Proof.
  assert (Hs : @onStart exampleHost exampleApi emptyDisk "mfsu" stagingArgs
               = (Returns freshDevelopment,
                  [Mkdirp "/proj/src/.umi/.cache/.mfsu";
                   LoadCache "/proj/src/.umi/.cache/.mfsu"]))
    by (vm_compute; reflexivity).
  destruct (@mfsu_build_mode_unchecked exampleHost exampleApi emptyDisk
              okBuild stagingArgs freshDevelopment eq_refl eq_refl)
    as (_ & Hmode & _ & Hcmd).
  split; [reflexivity|]. split; [reflexivity|]. split; [reflexivity|].
  split; [exact Hs|]. split; [exact (Hmode _ _ Hs)|].
  rewrite Hcmd. vm_compute. reflexivity.
Defined.

(** With [build] as the second positional argument the same mode is
    rejected. *)
Example staging_rejected_at_second_position :
  modeTaken "mfsu" rejectedArgs = true ∧
  @onStart exampleHost exampleApi emptyDisk "mfsu" rejectedArgs
  = (Throws (AssertionError
       "[MFSU] Unsupported mode staging, expect development or production."),
     []).
Proof. split; reflexivity. Qed.

(** ** The gateway and the build in flight *)

Section GatewayFacts.
Context `{Host}.

Lemma middleware_managed (api : Api) (req : Request) (res : Response)
    (info : ReqPathInfo) :
  normalizeReqPath api (path req) = Returns info →
  isMfAssets info = true →
  mfsuMiddleware api req res
  = Returns (OnBuildComplete
               (serveAsset api req res (fileRelativePath info))).
Proof. intros Hn Hm. unfold mfsuMiddleware. by rewrite Hn, Hm. Qed.

(** While a build is in flight a step other than its completion reads no
    file: a managed request only joins the waiting functions. *)
Lemma step_while_building (api : Api) (s : Server) (i : Input) :
  isBuilding (builder s) = true → isCompletion i = false →
  isBuilding (builder (step api s i)) = true ∧
  files (step api s i) = files s ∧
  (∃ more, waiting (builder (step api s i))
           = (waiting (builder s) ++ more)%list) ∧
  (∃ added, log (step api s i) = (log s ++ added)%list ∧
            ∀ o, o ∈ added → isFileRead o = false).
Proof.
  intros Hb Hi. destruct i as [req res| |written]; [| |discriminate]; simpl.
  - destruct (mfsuMiddleware api req res) as [[|fn]|e]; simpl.
    + repeat split; auto; [by exists []; rewrite app_nil_r|].
      eexists. split; [reflexivity|].
      by intros o ->%list_elem_of_singleton.
    + unfold depBuilder_onBuildComplete. rewrite Hb. simpl.
      repeat split; auto; [by eexists|].
      exists []. split; [reflexivity|]. intros o Ho.
      by apply elem_of_nil in Ho.
    + repeat split; auto; [by exists []; rewrite app_nil_r|].
      eexists. split; [reflexivity|].
      by intros o ->%list_elem_of_singleton.
  - repeat split; auto; [by exists []; rewrite app_nil_r|].
    exists []. rewrite app_nil_r. split; [reflexivity|]. intros o Ho.
    by apply elem_of_nil in Ho.
Qed.

Lemma run_while_building (api : Api) (ins : list Input) (s : Server) :
  isBuilding (builder s) = true →
  forallb (λ i, negb (isCompletion i)) ins = true →
  isBuilding (builder (run api s ins)) = true ∧
  files (run api s ins) = files s ∧
  (∃ more, waiting (builder (run api s ins))
           = (waiting (builder s) ++ more)%list) ∧
  (∃ added, log (run api s ins) = (log s ++ added)%list ∧
            ∀ o, o ∈ added → isFileRead o = false).
Proof.
  revert s. induction ins as [|i ins IH]; intros s Hb Hins; simpl.
  - repeat split; auto; exists []; rewrite app_nil_r; auto.
    split; [reflexivity|]. intros o Ho. by apply elem_of_nil in Ho.
  - simpl in Hins. apply andb_true_iff in Hins as [Hi Hins].
    apply negb_true_iff in Hi.
    destruct (step_while_building api s i Hb Hi)
      as (Hb1 & Hf1 & (m1 & Hw1) & (a1 & Hl1 & Ha1)).
    destruct (IH (step api s i) Hb1 Hins)
      as (Hb2 & Hf2 & (m2 & Hw2) & (a2 & Hl2 & Ha2)).
    unfold run in *. simpl.
    split; [exact Hb2|]. split; [by rewrite Hf2|]. split.
    + exists (m1 ++ m2)%list. rewrite Hw2, Hw1. by rewrite app_assoc.
    + exists (a1 ++ a2)%list. rewrite Hl2, Hl1.
      split; [by rewrite app_assoc|].
      intros o [Ho|Ho]%elem_of_app; auto.
Qed.

(** C5. The middleware answers a managed request by handing a function
    to [depBuilder.onBuildComplete] and does nothing else: the file is read
    and the response sent inside that function.  When the request arrives
    while a build is in flight, no file is read before the build completes,
    whatever else happens in between; at the completion the notification
    comes first and the read of this request after it, on the files as the
    build left them. *)
Theorem reads_wait_for_completion (api : Api) (s : Server) (req : Request)
    (res : Response) (info : ReqPathInfo) (ins : list Input)
    (written : Files) :
  normalizeReqPath api (path req) = Returns info →
  isMfAssets info = true →
  isBuilding (builder s) = true →
  forallb (λ i, negb (isCompletion i)) ins = true →
  let fn := serveAsset api req res (fileRelativePath info) in
  let s1 := run api (step api s (Arrives req res)) ins in
  let s2 := step api s1 (BuildCompletes written) in
  mfsuMiddleware api req res = Returns (OnBuildComplete fn) ∧
  (∃ added, log s1 = (log s ++ added)%list ∧
            ∀ o, o ∈ added → isFileRead o = false) ∧
  (∃ before after,
     log s2 = (log s1 ++ BuildCompleted :: before
               ++ fire written {| waitingRequest := req; waitingFn := fn |}
               ++ after)%list) ∧
  fileRead (fn written) = assetFile api (fileRelativePath info).
Proof.
  intros Hn Hm Hb Hins fn s1 s2.
  pose proof (middleware_managed api req res info Hn Hm) as Hmw.
  split; [exact Hmw|].
  set (s0 := step api s (Arrives req res)).
  assert (Hs0 : isBuilding (builder s0) = true ∧ log s0 = log s ∧
                waiting (builder s0)
                = (waiting (builder s)
                   ++ [{| waitingRequest := req; waitingFn := fn |}])%list).
  { unfold s0. simpl. rewrite Hmw. unfold depBuilder_onBuildComplete.
    rewrite Hb. simpl. rewrite app_nil_r. auto. }
  destruct Hs0 as (Hb0 & Hl0 & Hw0).
  destruct (run_while_building api ins s0 Hb0 Hins)
    as (_ & _ & (more & Hw1) & (added & Hl1 & Hadded)).
  subst s1 s2. fold s0. split; [|split; [|reflexivity]].
  - exists added. split; [by rewrite Hl1, Hl0 | exact Hadded].
  - exists (flat_map (fire written) (waiting (builder s))),
           (flat_map (fire written) more).
    simpl. rewrite Hw1, Hw0.
    rewrite !flat_map_app. simpl. rewrite ?app_nil_r.
    by rewrite <- ?app_assoc.
Qed.

(** A plugin started by a command other than [build] and [mfsu] runs in
    development mode; the development server is started by [dev]. *)
Lemma onStart_development (api : Api) (disk : Disk) (name : string)
    (args : Args) (p : Plugin) (evs : list Event) :
  onStart api disk name args = (Returns p, evs) →
  name ≠ "build" → name ≠ "mfsu" →
  mode p = "development".
Proof.
  unfold onStart. destruct (checkConfig api); [|discriminate].
  rewrite selectMode_cases. unfold modeTaken.
  intros Hs Hb%String.eqb_neq Hm%String.eqb_neq. rewrite Hb, Hm in Hs.
  simpl in Hs. by injection Hs as <- _.
Qed.

(** The builder of a started plugin works in the output directory of the
    plugin's mode. *)
Lemma onStart_directory (api : Api) (disk : Disk) (name : string)
    (args : Args) (p : Plugin) (evs : list Event) :
  onStart api disk name args = (Returns p, evs) →
  depBuilder_tmpDir p = getMfsuPath api (mode p).
Proof.
  unfold onStart. destruct (checkConfig api); [|discriminate].
  destruct (supportedMode (selectMode name args)); [|discriminate].
  by intros [= <- _].
Qed.

(** C8. In a plugin that serves requests, that is one started by a
    command other than [build] and [mfsu], a managed request that arrives
    while no build is in flight is answered at once from the output
    directory of the current mode: the file read is the one at the asset's
    relative path under [getMfsuPath] for the mode of the plugin, which is
    the directory the builder works in.  When the file can be read its text
    is the body of the response, and when it cannot the read error is what
    the request gets. *)
Theorem idle_request_served_from_output (api : Api) (disk : Disk)
    (name : string) (args : Args) (p : Plugin) (evs : list Event)
    (s : Server) (req : Request) (res : Response) (info : ReqPathInfo) :
  onStart api disk name args = (Returns p, evs) →
  name ≠ "build" → name ≠ "mfsu" →
  normalizeReqPath api (path req) = Returns info →
  isMfAssets info = true →
  isBuilding (builder s) = false →
  let file :=
    path_join [getMfsuPath api (mode p); fileRelativePath info] in
  getMfsuPath api (mode p) = depBuilder_tmpDir p ∧
  ∃ answer,
    step api s (Arrives req res)
    = {| builder := builder s; files := files s;
         log := (log s ++ [FileRead req file; answer])%list |} ∧
    (∀ content, files s !! file = Some content →
       ∃ res', answer = Replied req res' ∧ body res' = Some content) ∧
    (files s !! file = None → ∃ e, answer = ReadFailed req e).
Proof.
  intros Hstart Hb Hc Hn Hm Hidle.
  rewrite (onStart_development _ _ _ _ _ _ Hstart Hb Hc).
  rewrite (onStart_directory _ _ _ _ _ _ Hstart).
  rewrite (onStart_development _ _ _ _ _ _ Hstart Hb Hc).
  intros file. split; [reflexivity|].
  change file with (assetFile api (fileRelativePath info)).
  clear file.
  unfold step. rewrite (middleware_managed api req res info Hn Hm).
  unfold depBuilder_onBuildComplete. rewrite Hidle.
  cbn [flat_map]. rewrite app_nil_r.
  destruct (files s !! assetFile api (fileRelativePath info))
    as [content|] eqn:Hfile.
  - rewrite (fire_found api req res _ (files s) content Hfile).
    eexists. split; [reflexivity|]. split; [|discriminate].
    intros c [= <-]. by eexists.
  - unfold fire, serveAsset. cbn [waitingFn waitingRequest fileRead reply].
    rewrite Hfile. eexists. split; [reflexivity|].
    split; [discriminate|]. intros _. by eexists.
Qed.

End GatewayFacts.

(** *** The gateway on concrete requests *)

Lemma reads_wait_for_completion_witness :
  @normalizeReqPath exampleHost exampleApi (path exampleReq)
    = Returns exampleInfo ∧
  isMfAssets exampleInfo = true ∧
  isBuilding (builder buildingServer) = true ∧
  forallb (λ i, negb (isCompletion i)) exampleInputs = true ∧
  log (@run exampleHost exampleApi
         (@step exampleHost exampleApi buildingServer
            (Arrives exampleReq exampleRes)) exampleInputs)
  = [Passed pageReq] ∧
  ∃ before after,
    log (@step exampleHost exampleApi
           (@run exampleHost exampleApi
              (@step exampleHost exampleApi buildingServer
                 (Arrives exampleReq exampleRes)) exampleInputs)
           (BuildCompletes exampleFiles))
    = ([Passed pageReq] ++ BuildCompleted :: before
       ++ fire exampleFiles
            {| waitingRequest := exampleReq;
               waitingFn := @serveAsset exampleHost exampleApi exampleReq
                              exampleRes "mf-va_remoteEntry.js" |}
       ++ after)%list.
Proof.
  split; [reflexivity|]. split; [reflexivity|]. split; [reflexivity|].
  split; [reflexivity|]. split; [reflexivity|].
  pose proof (@reads_wait_for_completion exampleHost exampleApi
                buildingServer exampleReq exampleRes exampleInfo
                exampleInputs exampleFiles
                eq_refl eq_refl eq_refl eq_refl) as Hw.
  cbv zeta in Hw. destruct Hw as (_ & _ & Hlog & _). exact Hlog.
Defined.

Lemma idle_request_served_from_output_witness :
  @onStart exampleHost exampleApi emptyDisk "dev" devArgs
  = (Returns freshDevelopment,
     [Mkdirp "/proj/src/.umi/.cache/.mfsu";
      LoadCache "/proj/src/.umi/.cache/.mfsu"]) ∧
  "dev" ≠ "build" ∧ "dev" ≠ "mfsu" ∧
  @normalizeReqPath exampleHost exampleApi (path exampleReq)
    = Returns exampleInfo ∧
  isMfAssets exampleInfo = true ∧
  isBuilding (builder idleServer) = false ∧
  @path_join exampleHost
    [@getMfsuPath exampleHost exampleApi (mode freshDevelopment);
     fileRelativePath exampleInfo]
  = "/proj/src/.umi/.cache/.mfsu/mf-va_remoteEntry.js" ∧
  ∃ answer,
    @step exampleHost exampleApi idleServer (Arrives exampleReq exampleRes)
    = {| builder := builder idleServer; files := files idleServer;
         log := [FileRead exampleReq
                   "/proj/src/.umi/.cache/.mfsu/mf-va_remoteEntry.js";
                 answer] |} ∧
    (∀ content,
       files idleServer
       !! "/proj/src/.umi/.cache/.mfsu/mf-va_remoteEntry.js" = Some content →
       ∃ res', answer = Replied exampleReq res' ∧ body res' = Some content) ∧
    (files idleServer
     !! "/proj/src/.umi/.cache/.mfsu/mf-va_remoteEntry.js" = None →
     ∃ e, answer = ReadFailed exampleReq e).
Proof.
  assert (Hs : @onStart exampleHost exampleApi emptyDisk "dev" devArgs
               = (Returns freshDevelopment,
                  [Mkdirp "/proj/src/.umi/.cache/.mfsu";
                   LoadCache "/proj/src/.umi/.cache/.mfsu"]))
    by (vm_compute; reflexivity).
  split; [exact Hs|]. split; [discriminate|]. split; [discriminate|].
  split; [reflexivity|]. split; [reflexivity|]. split; [reflexivity|].
  split; [reflexivity|].
  exact (proj2 (@idle_request_served_from_output exampleHost exampleApi
                  emptyDisk "dev" devArgs freshDevelopment _ idleServer
                  exampleReq exampleRes exampleInfo
                  Hs ltac:(discriminate) ltac:(discriminate)
                  eq_refl eq_refl eq_refl)).
Defined.

Example idle_request_is_answered :
  log (@step exampleHost exampleApi idleServer
         (Arrives exampleReq exampleRes))
  = [FileRead exampleReq "/proj/src/.umi/.cache/.mfsu/mf-va_remoteEntry.js";
     Replied exampleReq
       {| headers := {[ "content-type" := "application/javascript" ]};
          body := Some "entry();" |}].
Proof. vm_compute. reflexivity. Qed.

(** *** Reconcile runs on concrete states *)

Example unrelated_recompile_is_a_no_op :
  loadTmpDeps (depInfo settledDevelopment) = false ∧
  @api_onDevCompileDone exampleHost exampleApi okBuild settledDevelopment
  = {| outcome := Returns tt; final := settledDevelopment; events := [] |}.
Proof. split; vm_compute; reflexivity. Qed.

Example forced_rebuild_builds :
  events (@buildDeps exampleHost exampleApi okBuild (Some true)
            settledDevelopment)
  = [Build {[ "react" := "@/pages/index.tsx" ]};
     WriteCache {[ "react" := "@/pages/index.tsx" ]};
     SockWrite reloadMessage].
Proof. vm_compute. reflexivity. Qed.

Example build_with_errors_writes_nothing :
  @buildDeps exampleHost exampleApi brokenBuild (Some true)
    settledDevelopment
  = {| outcome := Returns tt; final := settledDevelopment;
       events := [Build {[ "react" := "@/pages/index.tsx" ]}] |}.
Proof. vm_compute. reflexivity. Qed.

Example rejected_production_build_copies_nothing :
  @buildDeps exampleHost exampleApi rejectedBuild (Some true)
    freshProduction
  = {| outcome := Throws (PlainError "Module not found");
       final := freshProduction; events := [Build ∅] |}.
Proof. vm_compute. reflexivity. Qed.

(** * Further properties *)

#[local] Arguments Ascii.eqb : simpl never.

(** ** The normalized public path *)

Lemma skipDots_not_dot (afterDot : bool) (s : string) :
  JS.startsWith (JS.skipDots afterDot s) "." = false.
Proof.
  revert afterDot. induction s as [|c s IH]; intros afterDot; simpl;
    [reflexivity|].
  destruct (Ascii.eqb c ".") eqn:Ed; [apply IH|].
  destruct (Ascii.eqb c "/" && afterDot) eqn:Es; [apply IH|].
  simpl. rewrite Ascii.eqb_sym in Ed. rewrite Ed. reflexivity.
Qed.

Lemma startsWith_empty (s : string) : JS.startsWith s "" = true.
Proof. destruct s; reflexivity. Qed.

Lemma replaceLeadingDots_cases (s : string) :
  (JS.startsWith s "." = true ∧
   JS.replaceLeadingDots s = "/" +:+ JS.skipDots false s) ∨
  (JS.startsWith s "." = false ∧ JS.replaceLeadingDots s = s).
Proof.
  destruct s as [|c s]; simpl; [right; auto|].
  rewrite (Ascii.eqb_sym "." c).
  rewrite startsWith_empty.
  destruct (Ascii.eqb c "."); [left|right]; split; reflexivity.
Qed.

Lemma startsWith_slash_app (x : string) :
  JS.startsWith ("/" +:+ x) "/" = true ∧ JS.startsWith ("/" +:+ x) "." = false.
Proof.
  rewrite append_cons, append_nil. simpl. rewrite startsWith_empty.
  split; reflexivity.
Qed.

Lemma isHttpUrl_slash (s : string) :
  JS.startsWith s "/" = true → isHttpUrl s = false.
Proof.
  destruct s as [|c s]; simpl; [discriminate|].
  destruct (Ascii.eqb "/" c) eqn:E; [|discriminate].
  apply Ascii.eqb_eq in E. subst c. intros _. reflexivity.
Qed.

Section PublicPath.
Context `{Host}.

(** X1. A public path that is not an http(s) URL is normalized without
    error.  The result starts with a slash exactly when the public path
    starts with a dot or a slash, so a public path such as [static/] stays
    without a leading slash; and normalizing the result again changes
    nothing. *)
Theorem normalizePublicPath_relative (publicPath : string) :
  isHttpUrl publicPath = false →
  ∃ npp,
    normalizePublicPath publicPath = Returns npp ∧
    (JS.startsWith npp "/" = true ↔
       JS.startsWith publicPath "." = true ∨
       JS.startsWith publicPath "/" = true) ∧
    JS.startsWith npp "." = false ∧
    normalizePublicPath npp = Returns npp.
Proof.
  intros Hurl. unfold normalizePublicPath at 1. rewrite Hurl.
  eexists. split; [reflexivity|].
  destruct (replaceLeadingDots_cases publicPath) as [[Hd ->]|[Hd ->]].
  - destruct (startsWith_slash_app (JS.skipDots false publicPath))
      as [Hs Hn].
    split; [split; auto|]. split; [exact Hn|].
    unfold normalizePublicPath. rewrite (isHttpUrl_slash _ Hs).
    destruct (replaceLeadingDots_cases
                ("/" +:+ JS.skipDots false publicPath)) as [[Hd' _]|[_ ->]];
      [congruence | reflexivity].
  - split.
    { rewrite Hd. split; [auto | intros [?|?]; [discriminate|auto]]. }
    split; [exact Hd|].
    unfold normalizePublicPath. rewrite Hurl.
    destruct (replaceLeadingDots_cases publicPath) as [[Hd' _]|[_ ->]];
      [congruence | reflexivity].
Qed.

End PublicPath.

Lemma normalizePublicPath_relative_witness :
  isHttpUrl "../../static/" = false ∧
  ∃ npp,
    @normalizePublicPath exampleHost "../../static/" = Returns npp ∧
    (JS.startsWith npp "/" = true ↔
       JS.startsWith "../../static/" "." = true ∨
       JS.startsWith "../../static/" "/" = true) ∧
    JS.startsWith npp "." = false ∧
    @normalizePublicPath exampleHost npp = Returns npp.
Proof.
  split; [reflexivity|].
  apply (@normalizePublicPath_relative exampleHost "../../static/").
  reflexivity.
Defined.

Example public_path_without_leading_slash :
  @normalizePublicPath exampleHost "static/" = Returns "static/".
Proof. reflexivity. Qed.

(** ** The relative path of a managed asset *)

(** A public path without pattern operators, read as a pattern, matches
    itself. *)
Lemma matchHead_simplePattern (npp rest : string) (re : list JS.Atom) :
  JS.simplePattern npp = Some re →
  JS.matchHead re (npp +:+ rest) = Some rest.
Proof.
  revert re. induction npp as [|c npp IH]; intros re; simpl.
  - intros [= <-]. reflexivity.
  - destruct (JS.metaChar c); [discriminate|].
    destruct (JS.simplePattern npp) as [re'|]; [|discriminate].
    intros [= <-]. rewrite append_cons. simpl.
    destruct (Ascii.eqb c ".") eqn:E; simpl.
    + apply Ascii.eqb_eq in E. subst c. apply IH. reflexivity.
    + rewrite Ascii.eqb_refl. apply IH. reflexivity.
Qed.

Lemma simplePattern_total (s : string) :
  (∀ c, In c (list_ascii_of_string s) → JS.metaChar c = false) →
  ∃ re, JS.simplePattern s = Some re.
Proof.
  induction s as [|c s IH]; simpl; intros Hs; [by eexists|].
  rewrite (Hs c (or_introl eq_refl)).
  destruct IH as [re ->]; [intros; apply Hs; by right|]. by eexists.
Qed.

Lemma skipDots_chars (afterDot : bool) (s : string) (c : ascii) :
  In c (list_ascii_of_string (JS.skipDots afterDot s)) →
  In c (list_ascii_of_string s).
Proof.
  revert afterDot. induction s as [|d s IH]; intros afterDot; simpl;
    [auto|].
  destruct (Ascii.eqb d "."); [intros Hc; right; eapply IH; eauto|].
  destruct (Ascii.eqb d "/" && afterDot);
    [intros Hc; right; eapply IH; eauto | auto].
Qed.

Lemma replaceLeadingDots_chars (s : string) (c : ascii) :
  In c (list_ascii_of_string (JS.replaceLeadingDots s)) →
  c = "/"%char ∨ In c (list_ascii_of_string s).
Proof.
  destruct (replaceLeadingDots_cases s) as [[_ ->]|[_ ->]]; [|auto].
  rewrite append_cons, append_nil. simpl.
  intros [<-|Hc]; [auto|]. right. eapply skipDots_chars; eauto.
Qed.

Section RelativePath.
Context `{Host}.

(** X2. When the normalized public path holds no pattern operator
    (letters, digits, slashes, dots, dashes and the like), every request
    classified as a managed asset is the public path followed by its
    relative file path, and that relative path begins with one of the three
    family prefixes: the prefix test and the pattern that strips the prefix
    agree, also for a public path with dots. *)
Theorem managed_relative_path (api : Api) (reqPath : string)
    (info : ReqPathInfo) (re : list JS.Atom) :
  normalizeReqPath api reqPath = Returns info →
  JS.simplePattern (normalPublicPath info) = Some re →
  isMfAssets info = true →
  reqPath = normalPublicPath info +:+ fileRelativePath info ∧
  familyPrefixed (fileRelativePath info).
Proof.
  intros Hn Hre Hm.
  destruct (normalizeReqPath_inv _ _ _ Hn)
    as (_ & His & replaced & Hr & Hrel).
  rewrite His in Hm. rewrite !orb_true_iff, !startsWith_app in Hm.
  assert (Hrest : ∃ rest, reqPath = normalPublicPath info +:+ rest ∧
                          familyPrefixed rest).
  { unfold familyPrefixed.
    destruct Hm as [[(r & Hp & Hs)|(r & Hp & Hs)]|(r & Hp & Hs)];
      exists r; auto. }
  destruct Hrest as (rest & Hp & Hfam).
  unfold replacePublicPath in Hr. rewrite Hre in Hr.
  rewrite Hp, (matchHead_simplePattern _ _ _ Hre) in Hr.
  injection Hr as <-. rewrite Hrel.
  rewrite append_cons, append_nil. simpl. auto.
Qed.

(** X3. [normalizeReqPath] never throws when the public path is not an
    http(s) URL and holds no pattern operator; the public path it reports
    is the configured one with its leading dots replaced by a slash. *)
Theorem normalizeReqPath_returns (api : Api) (reqPath : string) :
  isHttpUrl (config_publicPath api) = false →
  (∀ c, In c (list_ascii_of_string (config_publicPath api)) →
        JS.metaChar c = false) →
  ∃ info,
    normalizeReqPath api reqPath = Returns info ∧
    normalPublicPath info = JS.replaceLeadingDots (config_publicPath api).
Proof.
  intros Hurl Hmeta. unfold normalizeReqPath, normalizePublicPath.
  rewrite Hurl.
  destruct (simplePattern_total
              (JS.replaceLeadingDots (config_publicPath api)))
    as [re Hre].
  { intros c [->|Hc]%replaceLeadingDots_chars; [reflexivity | auto]. }
  unfold replacePublicPath. rewrite Hre.
  destruct (JS.matchHead re reqPath); eexists; split; reflexivity.
Qed.

End RelativePath.

Lemma managed_relative_path_witness :
  @normalizeReqPath exampleHost dottedApi "/v1.2/mf-dep_vendors.js"
  = Returns {| isMfAssets := true; normalPublicPath := "/v1.2/";
               fileRelativePath := "mf-dep_vendors.js" |} ∧
  "/v1.2/mf-dep_vendors.js" = "/v1.2/" +:+ "mf-dep_vendors.js" ∧
  familyPrefixed "mf-dep_vendors.js".
Proof.
  split; [reflexivity|].
  apply (@managed_relative_path exampleHost dottedApi
           "/v1.2/mf-dep_vendors.js"
           {| isMfAssets := true; normalPublicPath := "/v1.2/";
              fileRelativePath := "mf-dep_vendors.js" |}
           (JS.lits "/v1" ++ JS.AnyChar :: JS.lits "2/"));
    reflexivity.
Defined.

Lemma normalizeReqPath_returns_witness :
  isHttpUrl (config_publicPath dottedApi) = false ∧
  ∃ info,
    @normalizeReqPath exampleHost dottedApi "/umi.js" = Returns info ∧
    normalPublicPath info = "/v1.2/".
Proof.
  split; [reflexivity|].
  apply (@normalizeReqPath_returns exampleHost dottedApi "/umi.js");
    [reflexivity|].
  intros c Hc. simpl in Hc.
  repeat (destruct Hc as [<-|Hc]; [reflexivity|]). destruct Hc.
Defined.

(** ** The cache directory *)

Lemma contains_dot_mfsu_defaults :
  contains ".mfsu" ".mfsu" ∧ contains ".mfsu" "./.mfsu-production".
Proof.
  split; [by exists "", "" | by exists "./", "-production"].
Qed.

Lemma userOutput_configured (api : Api)
    (sel : MfsuConfig → option ModeConfig) :
  JS.whenTruthy ((userConfig_mfsu api ≫= sel) ≫= output)
  = configuredOutput (userConfig_mfsu api ≫= sel).
Proof.
  unfold configuredOutput.
  destruct (userConfig_mfsu api ≫= sel) as [mc|]; reflexivity.
Qed.

Lemma checkConfig_inv (api : Api) :
  checkConfig api = Returns tt →
  checkOutput (configuredOutput (config_mfsu api ≫= development))
    msg_development_output = Returns tt ∧
  checkOutput (configuredOutput (config_mfsu api ≫= production))
    msg_production_output = Returns tt.
Proof.
  unfold checkConfig.
  destruct (checkOutput (configuredOutput (config_mfsu api ≫= development))
              msg_development_output) as [[]|e]; [auto | discriminate].
Qed.

Section CacheDirectory.
Context `{Host}.

Lemma getMfsuPath_segments (api : Api) (m : string) :
  getMfsuPath api m = path_join (mfsuPathSegments api m).
Proof.
  unfold getMfsuPath, mfsuPathSegments, userOutput.
  destruct (String.eqb m "development");
    match goal with |- context [JS.whenTruthy ?o] =>
      destruct (JS.whenTruthy o) end; reflexivity.
Qed.

(** X4. When the mfsu section of the user configuration is the one that
    [checkConfig] has accepted, the directory that [getMfsuPath] joins ends,
    in either mode, with a segment that contains [.mfsu]: a configured
    output that passed the check, or one of the two default names. *)
Theorem accepted_config_names_mfsu_directory (api : Api) (m : string) :
  checkConfig api = Returns tt →
  userConfig_mfsu api = config_mfsu api →
  getMfsuPath api m = path_join (mfsuPathSegments api m) ∧
  ∃ seg, last (mfsuPathSegments api m) = Some seg ∧ contains ".mfsu" seg.
Proof.
  intros [Hd Hp]%checkConfig_inv Hsame.
  split; [apply getMfsuPath_segments|].
  destruct contains_dot_mfsu_defaults as [Hdef1 Hdef2].
  unfold mfsuPathSegments. rewrite !userOutput_configured, Hsame.
  destruct (String.eqb m "development").
  - destruct (configuredOutput (config_mfsu api ≫= development))
      as [p|] eqn:E.
    + exists p. split; [reflexivity|].
      exact (proj1 (checkOutput_returns _ _) Hd p eq_refl).
    + by exists ".mfsu".
  - destruct (configuredOutput (config_mfsu api ≫= production))
      as [p|] eqn:E.
    + exists p. split; [reflexivity|].
      exact (proj1 (checkOutput_returns _ _) Hp p eq_refl).
    + by exists "./.mfsu-production".
Qed.

(** ** Start-up *)

Lemma supportedMode_Some (v : JS.Val) (m : string) :
  supportedMode v = Some m →
  v = JS.Str m ∧ (m = "development" ∨ m = "production").
Proof.
  destruct v as [| |b|n|s|fs]; simpl; try discriminate.
  destruct (String.eqb s "development") eqn:Ed; simpl.
  - intros [= <-]. apply String.eqb_eq in Ed. auto.
  - destruct (String.eqb s "production") eqn:Ep; [|discriminate].
    intros [= <-]. apply String.eqb_eq in Ep. auto.
Qed.

(** X5. When [onStart] succeeds, the mode it leaves is [development] or
    [production], the builder works in the directory [getMfsuPath] gives
    for that mode, the configuration has passed [checkConfig], and the
    effects are: the directory is created if and only if it did not exist,
    then the cache is loaded from it. *)
Theorem onStart_establishes (api : Api) (disk : Disk) (name : string)
    (args : Args) (p : Plugin) (evs : list Event) :
  onStart api disk name args = (Returns p, evs) →
  (mode p = "development" ∨ mode p = "production") ∧
  depBuilder_tmpDir p = getMfsuPath api (mode p) ∧
  checkConfig api = Returns tt ∧
  (depBuilder_tmpDir p ∈ dirs disk →
     evs = [LoadCache (depBuilder_tmpDir p)]) ∧
  (depBuilder_tmpDir p ∉ dirs disk →
     evs = [Mkdirp (depBuilder_tmpDir p); LoadCache (depBuilder_tmpDir p)]).
Proof.
  unfold onStart. destruct (checkConfig api) as [[]|e]; [|discriminate].
  destruct (supportedMode (selectMode name args)) as [m|] eqn:Hm;
    [|discriminate].
  apply supportedMode_Some in Hm as [_ Hm].
  intros [= <- <-]. simpl.
  split; [exact Hm|]. split; [reflexivity|]. split; [reflexivity|].
  split; intros Hdir.
  - by rewrite bool_decide_eq_true_2.
  - by rewrite bool_decide_eq_false_2.
Qed.

End CacheDirectory.

Lemma accepted_config_names_mfsu_directory_witness :
  checkConfig customDirApi = Returns tt ∧
  userConfig_mfsu customDirApi = config_mfsu customDirApi ∧
  @getMfsuPath exampleHost customDirApi "production"
  = @path_join exampleHost (mfsuPathSegments customDirApi "production") ∧
  ∃ seg, last (mfsuPathSegments customDirApi "production") = Some seg ∧
         contains ".mfsu" seg.
Proof.
  split; [reflexivity|]. split; [reflexivity|].
  apply (@accepted_config_names_mfsu_directory exampleHost customDirApi
           "production"); reflexivity.
Defined.

Lemma onStart_establishes_witness :
  @onStart exampleHost exampleApi emptyDisk "build" noArgs
  = (Returns freshProduction,
     [Mkdirp "/proj/.mfsu-production"; LoadCache "/proj/.mfsu-production"]) ∧
  (mode freshProduction = "development" ∨
   mode freshProduction = "production") ∧
  depBuilder_tmpDir freshProduction
  = @getMfsuPath exampleHost exampleApi (mode freshProduction).
Proof.
  assert (Hs : @onStart exampleHost exampleApi emptyDisk "build" noArgs
               = (Returns freshProduction,
                  [Mkdirp "/proj/.mfsu-production";
                   LoadCache "/proj/.mfsu-production"]))
    by (vm_compute; reflexivity).
  split; [exact Hs|].
  destruct (@onStart_establishes exampleHost exampleApi emptyDisk "build"
              noArgs freshProduction _ Hs) as (Hm & Ht & _).
  split; [exact Hm | exact Ht].
Defined.

(** ** The order of effects in a reconcile run *)

Lemma elem_of_middle {A} (l before after : list A) (e : A) :
  l = (before ++ e :: after)%list → e ∈ l.
Proof. intros ->. apply elem_of_app. right. apply elem_of_cons. by left. Qed.

Lemma completion_event_kinds (e : Event) :
  isWriteCache e ∨ e = SockWrite reloadMessage →
  ¬ isBuild e ∧ ¬ isCopy e.
Proof.
  intros [(d & ->)| ->]; split; intros H; destruct H as (? & H);
    try destruct H as (? & H); discriminate.
Qed.

Section EventOrder.
Context `{Host}.

(** X7. The effects of a reconcile run come in a fixed order.  The
    builder is invoked at most once, as the very first effect and with the
    pending set; a cache write or a socket message occurs only in a run
    that began with that invocation; and a copy, if there is one, is the
    very last effect, made in production mode by a run that returns
    normally. *)
Theorem buildDeps_event_order (api : Api) (b : BuildRun)
    (force : option bool) (p : Plugin) :
  (∀ before e after,
     events (buildDeps api b force p) = (before ++ e :: after)%list →
     isBuild e →
     before = [] ∧ e = Build (pending (depInfo p)) ∧
     buildNeeded force p = true) ∧
  (∀ before e after,
     events (buildDeps api b force p) = (before ++ e :: after)%list →
     isCopy e →
     after = [] ∧ mode p = "production" ∧
     outcome (buildDeps api b force p) = Returns tt) ∧
  (∀ e, e ∈ events (buildDeps api b force p) →
     isWriteCache e ∨ isSockWrite e →
     ∃ rest, events (buildDeps api b force p)
             = Build (pending (depInfo p)) :: rest).
Proof.
  destruct (buildDeps_events api b force p)
    as (mid & tl & Hev & Hmid & Htl).
  assert (Hpre : ∀ e, e ∈ (if buildNeeded force p
                           then Build (pending (depInfo p)) :: mid
                           else []) →
                      ¬ isCopy e ∧
                      (isBuild e → e = Build (pending (depInfo p)))).
  { intros e He. destruct (buildNeeded force p);
      [|by apply elem_of_nil in He].
    apply elem_of_cons in He as [->|He].
    - split; [intros (? & ? & ?); discriminate | auto].
    - destruct (completion_event_kinds e (Hmid e He)) as [Hnb Hnc].
      split; [exact Hnc | intros Hb; contradiction]. }
  assert (Htail : ∀ e, e ∈ tl → isCopy e ∧ tl = [e] ∧
                             mode p = "production" ∧
                             outcome (buildDeps api b force p) = Returns tt).
  { intros e He. destruct Htl as [->|(-> & Hm & Ho)];
      [by apply elem_of_nil in He|].
    apply list_elem_of_singleton in He. subst e.
    split; [by eexists _, _ | auto]. }
  split; [|split].
  - intros before e after Heq Hb. rewrite Hev in Heq.
    destruct (buildNeeded force p) eqn:Hn.
    + destruct before as [|x before]; simpl in Heq.
      * injection Heq as <- _. auto.
      * exfalso. injection Heq as _ Heq.
        apply elem_of_middle, elem_of_app in Heq as [He|He].
        -- destruct (completion_event_kinds e (Hmid e He)); contradiction.
        -- destruct (Htail e He) as ((? & ? & ->) & _).
           destruct Hb as (? & ?). discriminate.
    + exfalso. simpl in Heq. apply elem_of_middle in Heq.
      destruct (Htail e Heq) as ((? & ? & ->) & _).
      destruct Hb as (? & ?). discriminate.
  - intros before e after Heq Hc. rewrite Hev in Heq.
    apply app_eq_app in Heq as (l & [[Hl1 Hl2]|[Hl1 Hl2]]).
    + destruct l as [|x l]; simpl in Hl2.
      * assert (He : e ∈ tl)
          by (rewrite <- Hl2; apply elem_of_cons; by left).
        destruct (Htail e He) as (_ & Htl' & Hm & Ho).
        rewrite Htl' in Hl2. injection Hl2 as <-. auto.
      * injection Hl2 as <- _. exfalso.
        apply (proj1 (Hpre e ltac:(rewrite Hl1; apply elem_of_app; right;
                                   apply elem_of_cons; by left))).
        exact Hc.
    + assert (He : e ∈ tl) by (eapply elem_of_middle; eauto).
      destruct (Htail e He) as (_ & Htl' & Hm & Ho).
      rewrite Htl' in Hl2. destruct l as [|x [|y l]]; simpl in Hl2.
      * injection Hl2 as <-. auto.
      * injection Hl2 as _ Hl2. discriminate.
      * injection Hl2 as _ Hl2. discriminate.
  - intros e He Hk. rewrite Hev in He |- *.
    destruct (buildNeeded force p).
    + by eexists.
    + exfalso. simpl in He. destruct (Htail e He) as ((? & ? & ->) & _).
      destruct Hk as [(? & ?)|(? & ?)]; discriminate.
Qed.

(** ** The lifecycle hooks *)

(** X9. The two lifecycle hooks never force a build.  After a failed
    build of the application, [api.onBuildComplete] does nothing at all.
    Otherwise both hooks invoke the builder exactly when the store reports
    [shouldBuild]; and a development compile pass that finds nothing to
    build has no effect whatsoever. *)
Theorem hooks_reconcile_without_force (api : Api) (b : BuildRun)
    (p : Plugin) :
  (∀ e, api_onBuildComplete api b (Some e) p
        = {| outcome := Returns tt; final := p; events := [] |}) ∧
  ((∃ deps, Build deps ∈ events (api_onBuildComplete api b None p)) ↔
     loadTmpDeps (depInfo p) = true) ∧
  ((∃ deps, Build deps ∈ events (api_onDevCompileDone api b p)) ↔
     loadTmpDeps (depInfo p) = true) ∧
  (loadTmpDeps (depInfo p) = false → mode p ≠ "production" →
     api_onDevCompileDone api b p
     = {| outcome := Returns tt; final := p; events := [] |}).
Proof.
  assert (Hiff : (∃ deps, Build deps ∈ events (buildDeps api b None p)) ↔
                 loadTmpDeps (depInfo p) = true).
  { change (loadTmpDeps (depInfo p)) with (buildNeeded None p).
    destruct (buildNeeded None p) eqn:Hn.
    - split; [auto|intros _].
      destruct (buildDeps_events api b None p) as (evs & tl & -> & _).
      rewrite Hn. eexists. apply elem_of_app. left. apply elem_of_cons.
      by left.
    - split; [|discriminate]. rewrite (buildDeps_skips _ _ _ _ Hn). simpl.
      intros (deps & (s & d & Hc)%copyEvents_quiet). discriminate. }
  split; [reflexivity|]. split; [exact Hiff|]. split; [exact Hiff|].
  intros Hs Hm. unfold api_onDevCompileDone.
  rewrite (buildDeps_skips api b None p Hs). unfold copyEvents.
  apply String.eqb_neq in Hm. by rewrite Hm.
Qed.

End EventOrder.

(** ** [modifyConfig] *)



Example modifyConfig_keeps_empty_chunks :
  configGet
    (modifyConfig
       {[ "mfsu" := DObj [("chunks", DArr [])];
          "chunks" := DArr [DStr "vendors"; DStr "umi"] ]}) "chunks"
  = DArr [].
Proof. vm_compute. reflexivity. Qed.

(** ** [modifyBabelOpts] *)

Lemma fieldOf_setField_eq {V} (k : string) (v : V)
    (fields : list (string * V)) :
  fieldOf k (setField k v fields) = Some v.
Proof.
  induction fields as [|[k' v'] fields IH]; simpl.
  - by rewrite String.eqb_refl.
  - destruct (String.eqb k' k) eqn:E; simpl.
    + by rewrite String.eqb_refl.
    + by rewrite E.
Qed.

Lemma fieldOf_setField_ne {V} (k j : string) (v : V)
    (fields : list (string * V)) :
  j ≠ k → fieldOf j (setField k v fields) = fieldOf j fields.
Proof.
  intros Hne. induction fields as [|[k' v'] fields IH]; simpl.
  - apply String.eqb_neq in Hne. rewrite String.eqb_sym in Hne.
    by rewrite Hne.
  - destruct (String.eqb k' k) eqn:E; simpl.
    + apply String.eqb_eq in E. subst k'.
      apply String.eqb_neq in Hne. rewrite String.eqb_sym in Hne.
      by rewrite Hne.
    + by rewrite IH.
Qed.

Lemma lowerPreset_lowered (preset preset' : PresetItem) :
  lowerPreset preset = Returns preset' → presetLowered preset preset'.
Proof.
  unfold lowerPreset, presetLowered.
  destruct preset as [name|name options]; [by intros [= <-]|].
  destruct (JS.test re_babelPresetUmi name); [|by intros [= <-]].
  destruct options as [o|]; [|discriminate].
  destruct (presetEnv o) as [env|] eqn:Henv; [|discriminate].
  intros [= <-]. exists o, env, (setField "useBuiltIns" (JS.Bool false) env).
  repeat split; auto.
  - apply fieldOf_setField_eq.
  - intros k Hk. by apply fieldOf_setField_ne.
Qed.

Lemma lowerPresets_lowered (presets presets' : list PresetItem) :
  lowerPresets presets = Returns presets' →
  Forall2 presetLowered presets presets'.
Proof.
  revert presets'. induction presets as [|preset rest IH]; simpl;
    intros presets'.
  - intros [= <-]. constructor.
  - destruct (lowerPreset preset) as [preset'|e] eqn:Hp; [|discriminate].
    destruct (lowerPresets rest) as [rest'|e]; [|discriminate].
    intros [= <-]. constructor; [by apply lowerPreset_lowered | by apply IH].
Qed.

Lemma lowerPresets_throws (presets : list PresetItem) :
  Exists presetUnusable presets →
  ∃ msg, lowerPresets presets = Throws (TypeError msg).
Proof.
  induction presets as [|preset rest IH]; intros Hex;
    [by apply Exists_nil in Hex|].
  simpl. destruct (lowerPreset preset) as [preset'|e] eqn:Hp.
  - apply Exists_cons in Hex as [Hbad|Hex].
    + exfalso. unfold presetUnusable, lowerPreset in *.
      destruct preset as [name|name options]; [done|].
      destruct Hbad as [Hre Hbad]. rewrite Hre in Hp.
      destruct options as [o|]; [|discriminate].
      destruct (presetEnv o) eqn:E; [congruence | discriminate].
    + destruct (IH Hex) as [msg ->]. by eexists.
  - unfold lowerPreset in Hp.
    destruct preset as [name|name options]; [discriminate|].
    destruct (JS.test re_babelPresetUmi name); [|discriminate].
    destruct options as [o|]; [|injection Hp as <-; by eexists].
    destruct (presetEnv o); [discriminate|]. injection Hp as <-.
    by eexists.
Qed.

(** X11. [modifyBabelOpts] puts the three plugins of the feature in front
    of the plugins it is given, which keep their order behind them.  It
    throws a type error when the options have no plugin list.  In every
    case, also when it throws or when [getUmiRedirect] fails, the alias
    table has by then received [core-js] and
    [regenerator-runtime/runtime], and no other alias has changed. *)
Theorem modifyBabelOpts_plugins (coreJs regenerator : string)
    (umiRedirect : Outcome JS.Val) (alias : gmap string string)
    (opts : BabelOpts) :
  let result := modifyBabelOpts coreJs regenerator umiRedirect alias opts in
  result.1 !! "core-js" = Some coreJs ∧
  result.1 !! "regenerator-runtime/runtime" = Some regenerator ∧
  (∀ key, key ≠ "core-js" → key ≠ "regenerator-runtime/runtime" →
          result.1 !! key = alias !! key) ∧
  (babelPlugins opts = None → ∃ e, result.2 = Throws e) ∧
  (∀ opts', result.2 = Returns opts' →
     ∃ redirect plugins,
       umiRedirect = Returns redirect ∧
       babelPlugins opts = Some plugins ∧
       babelPlugins opts'
       = Some (BabelPluginWarnRequire :: BabelPluginAutoExport
               :: BabelImportRedirectPlugin redirect :: plugins)).
Proof.
  unfold modifyBabelOpts. simpl. split; [|split; [|split; [|split]]].
  - rewrite lookup_insert_ne by done. by rewrite lookup_insert_eq.
  - by rewrite lookup_insert_eq.
  - intros key H1 H2. by rewrite !lookup_insert_ne.
  - intros Hnone. destruct umiRedirect as [redirect|e]; [|by eexists].
    destruct (babelPresets opts) as [presets|].
    + destruct (lowerPresets presets); [|by eexists].
      rewrite Hnone. by eexists.
    + rewrite Hnone. by eexists.
  - intros opts'. destruct umiRedirect as [redirect|e]; [|discriminate].
    destruct (match babelPresets opts with
              | Some presets => _ | None => _ end) as [presets'|e];
      [|discriminate].
    destruct (babelPlugins opts) as [plugins|]; [|discriminate].
    intros [= <-]. by eexists _, _.
Qed.

(** X12. When [modifyBabelOpts] returns, the presets are the ones it was
    given, in the same order, and only presets given as an array whose
    path matches [babel-preset-umi] differ: their [env.useBuiltIns] is now
    [false], every other field as before.  When such a preset comes
    without options, or its options without [env], the hook throws a type
    error instead. *)
Theorem modifyBabelOpts_presets (coreJs regenerator : string)
    (redirect : JS.Val) (alias : gmap string string) (opts : BabelOpts)
    (presets : list PresetItem) :
  babelPresets opts = Some presets →
  let result :=
    modifyBabelOpts coreJs regenerator (Returns redirect) alias opts in
  (∀ opts', result.2 = Returns opts' →
     ∃ presets', babelPresets opts' = Some presets' ∧
                 Forall2 presetLowered presets presets') ∧
  (Exists presetUnusable presets →
     ∃ msg, result.2 = Throws (TypeError msg)).
Proof.
  intros Hp. unfold modifyBabelOpts. simpl. rewrite Hp. split.
  - intros opts'.
    destruct (lowerPresets presets) as [presets'|e] eqn:Hl; [|discriminate].
    destruct (babelPlugins opts); [|discriminate].
    intros [= <-]. exists presets'. split; [reflexivity|].
    by apply lowerPresets_lowered.
  - intros Hex. destruct (lowerPresets_throws presets Hex) as [msg ->].
    by eexists.
Qed.

Lemma modifyBabelOpts_presets_witness :
  babelPresets exampleBabelOpts = Some examplePresets ∧
  (modifyBabelOpts "/n/core-js" "/n/regenerator-runtime/runtime.js"
     (Returns JS.Null) ∅ exampleBabelOpts).2
  = Returns
      {| babelPresets :=
           Some [PresetTuple "/n/@umijs/babel-preset-umi/app.js"
                   (Some {| presetEnv :=
                              Some [("useBuiltIns", JS.Bool false);
                                    ("corejs", corejs3)];
                            presetOther := [] |});
                 PresetName "@babel/preset-typescript"];
         babelPlugins :=
           Some [BabelPluginWarnRequire; BabelPluginAutoExport;
                 BabelImportRedirectPlugin JS.Null;
                 UserPlugin "lodash"] |} ∧
  ∃ presets',
    Some [PresetTuple "/n/@umijs/babel-preset-umi/app.js"
            (Some {| presetEnv :=
                       Some [("useBuiltIns", JS.Bool false);
                             ("corejs", corejs3)];
                     presetOther := [] |});
          PresetName "@babel/preset-typescript"] = Some presets' ∧
    Forall2 presetLowered examplePresets presets'.
Proof.
  split; [reflexivity|]. split; [reflexivity|].
  exact (proj1 (modifyBabelOpts_presets "/n/core-js"
                  "/n/regenerator-runtime/runtime.js" JS.Null ∅
                  exampleBabelOpts examplePresets eq_refl) _ eq_refl).
Defined.

Example modifyBabelOpts_without_plugins_throws :
  modifyBabelOpts "/n/core-js" "/n/regenerator-runtime/runtime.js"
    (Returns JS.Null) ∅ {| babelPresets := None; babelPlugins := None |}
  = ({[ "regenerator-runtime/runtime" := "/n/regenerator-runtime/runtime.js";
        "core-js" := "/n/core-js" ]},
     Throws (TypeError "opts.plugins is not iterable")).
Proof. vm_compute. reflexivity. Qed.

(** ** [modifyBundleConfig] *)

Lemma existsb_isMonacoPlugin_federated (plugins : list WebpackPlugin)
    (name : string) (remotes : list (string * string)) :
  existsb isMonacoPlugin
    (plugins ++ [ModuleFederationPlugin name remotes])%list
  = existsb isMonacoPlugin plugins.
Proof. rewrite existsb_app. simpl. by rewrite !orb_false_r. Qed.

Section BundleConfigFacts.
Variable DEFAULT_MF_NAME : string.
Variable MF_VA_PREFIX : string.

(** X13. Every call of [modifyBundleConfig] for a client bundle merges
    the aliases of the configuration into the shared alias table, an alias
    of the configuration winning over an older one of the same name and no
    alias ever being dropped; it appends the externals to the shared list,
    one empty object standing in for absent externals, so that what was
    collected before stays in front; and it records the public path.  A
    call for a server bundle changes neither the configuration nor the
    closure. *)
Theorem modifyBundleConfig_closure (mfName : option string)
    (memo : BundleConfig) (mfsu : bool) (c : Closure) :
  let client :=
    modifyBundleConfig DEFAULT_MF_NAME MF_VA_PREFIX mfName memo csr mfsu c in
  (∀ key,
     webpackAlias client.2 !! key
     = match default ∅ (resolve_alias memo) !! key with
       | Some target => Some target
       | None => webpackAlias c !! key
       end) ∧
  dom (webpackAlias c) ⊆ dom (webpackAlias client.2) ∧
  webpackExternals client.2
  = (webpackExternals c ++ externalsList (externals memo))%list ∧
  (externals memo = ExternalsValue JS.Undefined →
     webpackExternals client.2 = (webpackExternals c ++ [JS.Obj []])%list) ∧
  publicPath client.2 = output_publicPath memo ∧
  modifyBundleConfig DEFAULT_MF_NAME MF_VA_PREFIX mfName memo ssr mfsu c
  = (memo, c).
Proof.
  assert (Hc : (modifyBundleConfig DEFAULT_MF_NAME MF_VA_PREFIX mfName memo
                  csr mfsu c).2
               = {| webpackAlias :=
                      default ∅ (resolve_alias memo) ∪ webpackAlias c;
                    webpackExternals :=
                      (webpackExternals c
                       ++ externalsList (externals memo))%list;
                    publicPath := output_publicPath memo |}).
  { unfold modifyBundleConfig. destruct mfsu; reflexivity. }
  cbv zeta. rewrite Hc. cbn [webpackAlias webpackExternals publicPath].
  split; [|split; [|split; [|split; [|split]]]].
  - intros key. rewrite lookup_union.
    destruct (default ∅ (resolve_alias memo) !! key) as [t|];
      destruct (webpackAlias c !! key); reflexivity.
  - rewrite dom_union_L. set_solver.
  - reflexivity.
  - by intros ->.
  - reflexivity.
  - reflexivity.
Qed.

(** X14. For a client bundle of the application itself (not the bundle
    of the dependencies) [modifyBundleConfig] keeps the plugins it finds and
    adds, behind them, the federation plugin [umi-app] whose single remote
    is the configured name, or the default one for an absent or empty name,
    at [<name>@<prefix>remoteEntry.js]; the Monaco hack follows exactly
    when one of the plugins found is a [MonacoEditorWebpackPlugin].  For
    the bundle of the dependencies no plugin is added. *)
Theorem modifyBundleConfig_plugins (mfName : option string)
    (memo : BundleConfig) (c : Closure) :
  let name := default DEFAULT_MF_NAME (JS.whenTruthy mfName) in
  bundlePlugins
    (modifyBundleConfig DEFAULT_MF_NAME MF_VA_PREFIX mfName memo csr false
       c).1
  = (bundlePlugins memo
     ++ ModuleFederationPlugin "umi-app"
          [(name, name +:+ "@" +:+ MF_VA_PREFIX +:+ "remoteEntry.js")]
     :: (if existsb isMonacoPlugin (bundlePlugins memo)
         then [MonacoEditorWebpackPluginHack] else []))%list ∧
  (modifyBundleConfig DEFAULT_MF_NAME MF_VA_PREFIX mfName memo csr true
     c).1 = memo.
Proof.
  unfold modifyBundleConfig, remoteName, remoteEntryFile. simpl.
  split; [|reflexivity].
  rewrite existsb_isMonacoPlugin_federated.
  destruct (existsb isMonacoPlugin (bundlePlugins memo)).
  - by rewrite <- app_assoc.
  - reflexivity.
Qed.

Section RemoteEntry.
Context `{Host}.

(** X15. A request for the remote entry that the federation plugin
    names is never given the long-lived cache header: whatever the prefix
    constant, the public path before the file and the query string after
    it, the URL matches the remote-entry pattern, and the response keeps
    the [cache-control] it had. *)
Theorem remote_entry_is_not_cached (api : Api) (req : Request)
    (res : Response) (rel : string) (fs : Files) (content : string)
    (before after : string) :
  url req = before +:+ remoteEntryFile MF_VA_PREFIX +:+ after →
  fs !! assetFile api rel = Some content →
  JS.test re_remoteEntry (url req) = true ∧
  ∃ res',
    reply (serveAsset api req res rel fs) = Returns res' ∧
    headers res' !! "cache-control" = headers res !! "cache-control".
Proof.
  intros Hurl Hfile.
  assert (Hre : JS.test re_remoteEntry (url req) = true).
  { apply remoteEntry_pattern.
    exists (before +:+ MF_VA_PREFIX), "."%char, after.
    split; [reflexivity|]. rewrite Hurl. unfold remoteEntryFile.
    clear. induction before as [|ch before IH].
    - rewrite !append_nil.
      induction MF_VA_PREFIX as [|ch' pre IH']; [reflexivity|].
      rewrite !append_cons. by rewrite IH'.
    - rewrite !append_cons. by rewrite IH. }
  split; [exact Hre|].
  rewrite (serveAsset_found _ _ _ _ _ _ Hfile). eexists.
  split; [reflexivity|]. unfold servedResponse. rewrite Hre. simpl.
  by rewrite lookup_insert_ne.
Qed.

End RemoteEntry.
End BundleConfigFacts.

(** X16. The Monaco hack removes from the taps of the compiler's [make]
    hook exactly those named [AddWorkerEntryPointPlugin]: every other tap
    stays, in its place among the others, and applying the hack a second
    time changes nothing. *)
Theorem monacoHack_apply_removes (taps : list Tap) :
  (∀ tap, tap ∈ monacoHack_apply taps ↔
          tap ∈ taps ∧ tapName tap ≠ "AddWorkerEntryPointPlugin") ∧
  sublist (monacoHack_apply taps) taps ∧
  (Forall (λ tap, tapName tap ≠ "AddWorkerEntryPointPlugin") taps →
     monacoHack_apply taps = taps) ∧
  monacoHack_apply (monacoHack_apply taps) = monacoHack_apply taps.
Proof.
  unfold monacoHack_apply.
  split; [|split; [|split]].
  - intros tap. rewrite !list_elem_of_In, filter_In, negb_true_iff.
    by rewrite String.eqb_neq.
  - induction taps as [|tap taps IH]; simpl; [constructor|].
    destruct (negb _); by constructor.
  - induction 1 as [|tap taps Hn _ IH]; simpl; [reflexivity|].
    apply String.eqb_neq in Hn. rewrite Hn. simpl. by rewrite IH.
  - induction taps as [|tap taps IH]; simpl; [reflexivity|].
    destruct (negb _) eqn:E; simpl; [rewrite E|]; by rewrite ?IH.
Qed.

Lemma remote_entry_is_not_cached_witness :
  url exampleReq = "/" +:+ remoteEntryFile "mf-va_" +:+ "?t=1" ∧
  exampleFiles !! @assetFile exampleHost exampleApi "mf-va_remoteEntry.js"
    = Some "entry();" ∧
  JS.test re_remoteEntry (url exampleReq) = true ∧
  ∃ res',
    reply (@serveAsset exampleHost exampleApi exampleReq exampleRes
             "mf-va_remoteEntry.js" exampleFiles) = Returns res' ∧
    headers res' !! "cache-control" = headers exampleRes !! "cache-control".
Proof.
  assert (Hfile : exampleFiles
                  !! @assetFile exampleHost exampleApi "mf-va_remoteEntry.js"
                  = Some "entry();") by (vm_compute; reflexivity).
  split; [reflexivity|]. split; [exact Hfile|].
  exact (@remote_entry_is_not_cached "mf-va_" exampleHost exampleApi
           exampleReq exampleRes "mf-va_remoteEntry.js" exampleFiles
           "entry();" "/" "?t=1" eq_refl Hfile).
Defined.

Example modifyBundleConfig_with_monaco :
  bundlePlugins
    (modifyBundleConfig "mf" "mf-va_" (Some "") monacoConfig csr false
       emptyClosure).1
  = [OtherPlugin "MonacoEditorWebpackPlugin";
     OtherPlugin "HtmlWebpackPlugin";
     ModuleFederationPlugin "umi-app" [("mf", "mf@mf-va_remoteEntry.js")];
     MonacoEditorWebpackPluginHack].
Proof. reflexivity. Qed.

(** ** [onTransformDeps] *)

Lemma append_assoc_str (a b c : string) :
  (a +:+ b) +:+ c = a +:+ b +:+ c.
Proof.
  induction a as [|ch a IH]; [by rewrite !append_nil|].
  rewrite !append_cons. by f_equal.
Qed.

Lemma replaceFirst_head (pattern replacement rest : string) :
  replaceFirst pattern replacement (pattern +:+ rest) = replacement +:+ rest.
Proof.
  assert (Hm : JS.matchHead (JS.lits pattern) (pattern +:+ rest) = Some rest)
    by (by apply matchHead_lits).
  destruct (pattern +:+ rest); simpl; by rewrite Hm.
Qed.

Lemma replaceFirst_absent (pattern replacement s : string) :
  ¬ contains pattern s → replaceFirst pattern replacement s = s.
Proof.
  induction s as [|c s IH]; intros Hno.
  - simpl. destruct (JS.matchHead (JS.lits pattern) "") as [r|] eqn:E;
      [|reflexivity].
    exfalso. apply Hno. apply matchHead_lits in E. by exists "", r.
  - simpl. destruct (JS.matchHead (JS.lits pattern) (String c s))
      as [r|] eqn:E.
    + exfalso. apply Hno. apply matchHead_lits in E. by exists "", r.
    + rewrite IH; [reflexivity|]. intros (a & b & Hs). apply Hno.
      exists (String c a), b. rewrite append_cons. by rewrite Hs.
Qed.

Lemma replaceFirst_present (pattern replacement s : string) :
  contains pattern s →
  ∃ before after,
    s = before +:+ pattern +:+ after ∧
    replaceFirst pattern replacement s
    = before +:+ replacement +:+ after ∧
    ∀ before' after', s = before' +:+ pattern +:+ after' →
                      (String.length before ≤ String.length before')%nat.
Proof.
  induction s as [|c s IH]; intros Hin.
  - simpl. destruct (JS.matchHead (JS.lits pattern) "") as [r|] eqn:E.
    + apply matchHead_lits in E. exists "", r.
      repeat split; auto. intros; simpl; lia.
    + exfalso. destruct Hin as (a & b & Hs). destruct a; [|discriminate].
      rewrite append_nil in Hs. apply matchHead_lits in Hs. congruence.
  - simpl. destruct (JS.matchHead (JS.lits pattern) (String c s))
      as [r|] eqn:E.
    + apply matchHead_lits in E. exists "", r.
      repeat split; auto. intros; simpl; lia.
    + destruct IH as (a & b & Hs & Hr & Hfirst).
      { destruct Hin as (a & b & Hs). destruct a as [|c' a].
        - rewrite append_nil in Hs. apply matchHead_lits in Hs. congruence.
        - rewrite append_cons in Hs. injection Hs as _ Hs. by exists a, b. }
      exists (String c a), b. rewrite !append_cons.
      split; [by rewrite <- Hs|]. split; [by rewrite Hr|].
      intros a' b' Hs'. destruct a' as [|c' a'].
      * rewrite append_nil in Hs'. apply matchHead_lits in Hs'. congruence.
      * rewrite append_cons in Hs'. injection Hs' as _ Hs'.
        simpl. apply le_n_S. by apply (Hfirst a' b').
Qed.

Section TransformDepsFacts.
Variable chalk : string → string → string.

(** X17. [onTransformDeps] hands a dependency to [addTmpDep] exactly when
    the import matched, except that with [MFSU_DEBUG=UNMATCHED] a matched
    import whose source does not start with a dot is dropped: the early
    return of the debug branch skips the collection.  Without the debug
    variable nothing is logged, and nothing else is ever done. *)
Theorem onTransformDeps_collects (absSrcPath : string)
    (MFSU_DEBUG : option string) (opts : TransformedDep) :
  let effects := onTransformDeps chalk absSrcPath MFSU_DEBUG opts in
  let file := replaceFirst (absSrcPath +:+ "/") "@/" (dep_file opts) in
  ((∃ source f, AddTmpDep source f ∈ effects) ↔
     dep_isMatch opts = true ∧
     ¬ (MFSU_DEBUG = Some "UNMATCHED" ∧
        JS.startsWith (dep_source opts) "." = false)) ∧
  (∀ source f, AddTmpDep source f ∈ effects →
               source = dep_source opts ∧ f = file) ∧
  (JS.truthyStr MFSU_DEBUG = false →
     effects = if dep_isMatch opts
               then [AddTmpDep (dep_source opts) file] else []).
Proof.
  unfold onTransformDeps. simpl.
  destruct (JS.truthyStr MFSU_DEBUG) eqn:Ht; simpl.
  - destruct (JS.startsWith (dep_source opts) ".") eqn:Hrel; simpl.
    + split; [|split; [|discriminate]].
      * destruct (dep_isMatch opts); split.
        -- intros _. split; [reflexivity|]. intros [_ ?]. discriminate.
        -- intros _. eexists _, _. apply list_elem_of_singleton.
           reflexivity.
        -- intros (? & ? & Hin). by apply elem_of_nil in Hin.
        -- intros [? _]. discriminate.
      * intros source f Hin. destruct (dep_isMatch opts);
          [|by apply elem_of_nil in Hin].
        apply list_elem_of_singleton in Hin. by injection Hin as -> ->.
    + destruct (dep_isMatch opts) eqn:Hm; simpl;
        rewrite ?andb_true_r, ?andb_false_r.
      * destruct (bool_decide (MFSU_DEBUG = Some "UNMATCHED")) eqn:Hu.
        -- apply bool_decide_eq_true in Hu.
           split; [|split; [|discriminate]].
           ++ split; [intros (? & ? & Hin); by apply elem_of_nil in Hin|].
              intros [_ Hno]. exfalso. by apply Hno.
           ++ intros ? ? Hin. by apply elem_of_nil in Hin.
        -- apply bool_decide_eq_false in Hu.
           split; [|split; [|discriminate]].
           ++ split; [intros _; split; [reflexivity|]; by intros [? _]|].
              intros _. eexists _, _. apply elem_of_cons. right.
              apply list_elem_of_singleton. reflexivity.
           ++ intros source f [Hin|Hin]%elem_of_cons; [discriminate|].
              apply list_elem_of_singleton in Hin.
              by injection Hin as -> ->.
      * split; [|split; [|discriminate]].
        -- split; [|intros [? _]; discriminate].
           intros (? & ? & Hin).
           destruct (bool_decide (MFSU_DEBUG = Some "MATCHED"));
             [by apply elem_of_nil in Hin|].
           apply list_elem_of_singleton in Hin. discriminate.
        -- intros source f Hin.
           destruct (bool_decide (MFSU_DEBUG = Some "MATCHED"));
             [by apply elem_of_nil in Hin|].
           apply list_elem_of_singleton in Hin. discriminate.
  - split; [|split; [|reflexivity]].
    + assert (Hnot : MFSU_DEBUG ≠ Some "UNMATCHED")
        by (intros ->; discriminate).
      destruct (dep_isMatch opts); split.
      * intros _. split; [reflexivity|]. by intros [? _].
      * intros _. eexists _, _. apply list_elem_of_singleton. reflexivity.
      * intros (? & ? & Hin). by apply elem_of_nil in Hin.
      * intros [? _]. discriminate.
    + intros source f Hin. destruct (dep_isMatch opts);
        [|by apply elem_of_nil in Hin].
      apply list_elem_of_singleton in Hin. by injection Hin as -> ->.
Qed.

(** X18. The file that [onTransformDeps] records is the file of the
    import with the first occurrence of [<absSrcPath>/] replaced by [@/]:
    a file under the source directory becomes [@/...], a path that does
    not contain the source directory is recorded as it is, and when the
    directory occurs only further inside the path, it is replaced there. *)
Theorem onTransformDeps_file (absSrcPath source file : string) :
  let recorded :=
    onTransformDeps chalk absSrcPath None
      {| dep_file := file; dep_source := source; dep_isMatch := true |} in
  (∀ rest, file = absSrcPath +:+ "/" +:+ rest →
           recorded = [AddTmpDep source ("@/" +:+ rest)]) ∧
  (¬ contains (absSrcPath +:+ "/") file →
     recorded = [AddTmpDep source file]) ∧
  (contains (absSrcPath +:+ "/") file →
     ∃ before after,
       file = before +:+ (absSrcPath +:+ "/") +:+ after ∧
       recorded = [AddTmpDep source (before +:+ "@/" +:+ after)] ∧
       ∀ before' after',
         file = before' +:+ (absSrcPath +:+ "/") +:+ after' →
         (String.length before ≤ String.length before')%nat).
Proof.
  unfold onTransformDeps. simpl. split; [|split].
  - intros rest ->.
    by rewrite <- append_assoc_str, replaceFirst_head.
  - intros Hno. by rewrite replaceFirst_absent.
  - intros Hin.
    destruct (replaceFirst_present _ "@/" _ Hin)
      as (a & b & Hs & Hr & Hfirst).
    exists a, b. split; [exact Hs|]. split; [by rewrite Hr | exact Hfirst].
Qed.

End TransformDepsFacts.

Example unmatched_debug_drops_matched_import :
  onTransformDeps (λ _ text, text) "/proj/src" (Some "UNMATCHED")
    {| dep_file := "/proj/src/pages/index.tsx"; dep_source := "react";
       dep_isMatch := true |} = [] ∧
  onTransformDeps (λ _ text, text) "/proj/src" (Some "MATCHED")
    {| dep_file := "/proj/src/pages/index.tsx"; dep_source := "react";
       dep_isMatch := true |}
  = [LogImport "> import react from @/pages/index.tsx, MATCHED";
     AddTmpDep "react" "@/pages/index.tsx"].
Proof. split; reflexivity. Qed.

(** ** [modifyBabelPresetOpts] *)

Section BabelPresetOptsFacts.
Variable DEFAULT_MF_NAME : string.
Variable MF_VA_PREFIX : string.

(** X19. For the bundle of the dependencies ([args.mfsu]) the preset
    options pass through [modifyBabelPresetOpts] unchanged.  Otherwise only
    the key [importToAwaitRequire] is set, replacing whatever was there: it
    maps the working directory, and nothing else, to [$CWD$], and its
    remote name is the name under which [modifyBundleConfig] registers the
    remote of the federation plugin, for a configured name as for the
    default. *)
Theorem modifyBabelPresetOpts_remote (api : Api) (mfName : option string)
    (exportAllMembers : JS.Val) (opts : gmap string PresetOpt)
    (memo : BundleConfig) (c : Closure) :
  modifyBabelPresetOpts DEFAULT_MF_NAME api mfName exportAllMembers opts true
  = opts ∧
  ∃ cfg,
    modifyBabelPresetOpts DEFAULT_MF_NAME api mfName exportAllMembers opts
      false !! "importToAwaitRequire"
    = Some (ImportToAwaitRequireOpt cfg) ∧
    (∀ key, key ≠ "importToAwaitRequire" →
       modifyBabelPresetOpts DEFAULT_MF_NAME api mfName exportAllMembers
         opts false !! key = opts !! key) ∧
    (∀ dir, cfg_alias cfg !! dir
            = if decide (dir = cwd api) then Some "$CWD$" else None) ∧
    ModuleFederationPlugin "umi-app"
      [(cfg_remoteName cfg,
        cfg_remoteName cfg +:+ "@" +:+ MF_VA_PREFIX +:+ "remoteEntry.js")]
    ∈ bundlePlugins
        (modifyBundleConfig DEFAULT_MF_NAME MF_VA_PREFIX mfName memo csr
           false c).1.
Proof.
  split; [reflexivity|]. unfold modifyBabelPresetOpts. eexists.
  split; [apply lookup_insert_eq|].
  split; [intros key Hk; by rewrite lookup_insert_ne|].
  split.
  - intros dir. simpl. destruct (decide (dir = cwd api)) as [->|Hne].
    + apply lookup_singleton_eq.
    + by apply lookup_singleton_ne.
  - unfold modifyBundleConfig, remoteName, remoteEntryFile. simpl.
    destruct (existsb isMonacoPlugin _).
    + apply elem_of_app. left. apply elem_of_app. right.
      by apply list_elem_of_singleton.
    + apply elem_of_app. right. by apply list_elem_of_singleton.
Qed.

End BabelPresetOptsFacts.
